(** * The lessons and orders REST backend (src/express.js)

    A shallow embedding of the Express route handlers and of the part of
    the MongoDB driver they call, followed by the properties of the
    handlers.

    Modelling conventions.
    - Only the route handlers are modelled; the module-level set-up
      (imports, connection, logging, static files) is not.
    - A JSON or BSON number is the rational ([Qc]) it denotes; the sum
      that [$inc] stores is rounded to the nearest IEEE double, as the
      store does.  The infinities and NaN are not values of the model.
    - Strings are strings of 8-bit characters; case folding is the ASCII
      one.
    - A document is a finite map from field names to values; an embedded
      document keeps its fields as an ordered list, as BSON does.
    - A collection is the list of its documents in natural order.
    - The request body is the JSON object that [express.json()] has
      parsed, the id a string, the search query a string or absent.
    - Each handler runs to completion before the next one starts:
      interleavings of concurrent requests are not modelled.  The store
      itself does not fail; what it refuses (a duplicate or unusable
      [_id], an update it cannot apply) is thrown to the handler. *)

From Stdlib Require Import Ascii QArith Qcanon.
From stdpp Require Import base numbers list strings gmap.

Local Open Scope Z_scope.

(** * Part I: the model *)

(** ** Values *)

(** The 12 bytes of an [ObjectId], read as a big-endian number. *)
Definition ObjectId : Type := N.

#[warnings="-register-all"]
Inductive Value : Type :=
  | VNull
  | VBool (b : bool)
  | VNum (q : Qc)
  | VStr (s : string)
  | VOid (o : ObjectId)
  | VArr (l : list Value)
  | VObj (fs : list (string * Value)).

Global Instance Value_eq_dec : EqDecision Value.
Proof.
  refine (fix go (a b : Value) {struct a} : Decision (a = b) :=
    match a, b with
    | VNull, VNull => left _
    | VBool x, VBool y => cast_if (decide (x = y))
    | VNum x, VNum y => cast_if (decide (x = y))
    | VStr x, VStr y => cast_if (decide (x = y))
    | VOid x, VOid y => cast_if (decide (x = y))
    | VArr x, VArr y => cast_if (@list_eq_dec _ go x y)
    | VObj x, VObj y => cast_if (@list_eq_dec _ (@prod_eq_dec _ _ _ go) x y)
    | _, _ => right _
    end); congruence.
Defined.

(** A document: the fields of a top-level JSON object or of a stored
    record.  A field that is absent reads as JavaScript's [undefined]. *)
Abbreviation Doc := (gmap string Value).

(** The number literal [z]. *)
Definition num (z : Z) : Qc := Q2Qc (inject_Z z).

(** ** The behaviour of the platform that is left abstract

    [coerce_number] is ECMAScript's ToNumber on the values that go
    through ToPrimitive or StringToNumber (strings, arrays, objects),
    [None] standing for NaN.  [regexp_engine] is the matcher of the
    patterns that use regular-expression syntax beyond the fragment
    interpreted below, [None] standing for a SyntaxError.
    [update_paths updates o ds] is the store's
    [updateOne({ _id: o }, { $set: updates })] on a collection [ds] when
    [updates] has a key that is a dotted path, an operator name or
    empty, as far as [updateOne] below does not settle it: the counts
    and the collection afterwards, or [None] when the store rejects the
    update. *)
Record UpdateResult : Type := { matchedCount : nat; modifiedCount : nat }.

Class Platform : Type := {
  coerce_number : Value → option Qc;
  regexp_engine : string → option (string → bool);
  update_paths :
    Doc → ObjectId → list Doc →
    option (UpdateResult * list Doc);
}.

(** ** JavaScript coercions *)

(** [!v] is false exactly on the truthy values. *)
Definition truthy (v : option Value) : bool :=
  match v with
  | None => false
  | Some VNull => false
  | Some (VBool b) => b
  | Some (VNum q) => bool_decide (q ≠ 0%Qc)
  | Some (VStr s) => bool_decide (s ≠ "")
  | Some (VOid _) | Some (VArr _) | Some (VObj _) => true
  end.

Definition ToNumber `{Platform} (v : option Value) : option Qc :=
  match v with
  | None => None
  | Some VNull => Some 0%Qc
  | Some (VBool b) => Some (if b then 1%Qc else 0%Qc)
  | Some (VNum q) => Some q
  | Some v => coerce_number v
  end.

(** [v <= 0]: false when the left side is NaN. *)
Definition js_le_zero `{Platform} (v : option Value) : bool :=
  match ToNumber v with
  | Some q => bool_decide (q ≤ 0)%Qc
  | None => false
  end.

(** ** Responses *)

Inductive Body : Type :=
  | Message (message : string)
  | MessageId (message : string) (lessonId : Value)
  | Documents (docs : list Doc).

Record Response : Type := { status : nat; body : Body }.

(** [res.status(code).json({ message })] *)
Definition json (code : nat) (message : string) : Response :=
  {| status := code; body := Message message |}.

(** ** The store *)

(** [writes] counts the document writes the store has acknowledged
    (inserted plus modified documents); it is a ghost counter that no
    handler reads. *)
Record State : Type := {
  lessons : list Doc;
  orders : list Doc;
  writes : nat;
}.

Inductive Collection : Type := lessonsCollection | ordersCollection.

Definition documents (c : Collection) (st : State) : list Doc :=
  match c with
  | lessonsCollection => lessons st
  | ordersCollection => orders st
  end.

(** The state after one acknowledged write that leaves [c] holding [ds]. *)
Definition commit (c : Collection) (ds : list Doc) (st : State) : State :=
  match c with
  | lessonsCollection =>
      {| lessons := ds; orders := orders st; writes := S (writes st) |}
  | ordersCollection =>
      {| lessons := lessons st; orders := ds; writes := S (writes st) |}
  end.

(** ** Handlers as computations that may throw *)

Inductive Exn : Type :=
  | BSONError          (* the id is not a 24 character hex string *)
  | DuplicateKey       (* E11000 *)
  | InvalidId          (* an array as _id *)
  | ImmutableField     (* the update would change _id *)
  | NonNumeric         (* $inc on a field that holds no number *)
  | RejectedUpdate     (* any other update the store refuses *)
  | SyntaxError.       (* new RegExp on a malformed pattern *)

Inductive Result (A : Type) : Type :=
  | Ok (a : A)
  | Throw (e : Exn).
Arguments Ok {A} a.
Arguments Throw {A} e.

(** A computation runs on the store and leaves a store behind, also
    when it throws. *)
Definition M (A : Type) : Type := State → Result A * State.

Global Instance M_ret : MRet M := λ A a st, (Ok a, st).
Global Instance M_bind : MBind M := λ A B f m st,
  match m st with
  | (Ok a, st') => f a st'
  | (Throw e, st') => (Throw e, st')
  end.

Definition throw {A} (e : Exn) : M A := λ st, (Throw e, st).

(** [try { body } catch (err) { handler }] *)
Definition try_catch {A} (body : M A) (handler : Exn → M A) : M A := λ st,
  match body st with
  | (Ok a, st') => (Ok a, st')
  | (Throw e, st') => handler e st'
  end.

(** ** The driver *)

Definition hex_digit (c : ascii) : option N :=
  let n := N_of_ascii c in
  if bool_decide (48 ≤ n ≤ 57)%N then Some (n - 48)%N
  else if bool_decide (65 ≤ n ≤ 70)%N then Some (n - 55)%N
  else if bool_decide (97 ≤ n ≤ 102)%N then Some (n - 87)%N
  else None.

Fixpoint hex_value (acc : N) (s : string) : option N :=
  match s with
  | EmptyString => Some acc
  | String c s' =>
      match hex_digit c with
      | Some d => hex_value (16 * acc + d)%N s'
      | None => None
      end
  end.

(** [new ObjectId(s)] on a string: the 24 hex digits, or no id. *)
Definition ObjectId_of_string (s : string) : option ObjectId :=
  if bool_decide (String.length s = 24%nat) then hex_value 0%N s else None.

Definition new_ObjectId (s : string) : M ObjectId :=
  match ObjectId_of_string s with
  | Some o => mret o
  | None => throw BSONError
  end.

(** The filter [{ _id: id }]. *)
Definition has_id (id : Value) (d : Doc) : Prop := d !! "_id" = Some id.

Global Instance has_id_dec id d : Decision (has_id id d).
Proof. unfold has_id. apply _. Defined.

Definition oid_of (d : Doc) : option ObjectId :=
  match d !! "_id" with
  | Some (VOid o) => Some o
  | _ => None
  end.

(** The id the driver generates for a document inserted without one: an
    [ObjectId] that no document of the collection carries.  (The driver
    builds it from the clock, a per-process random value and a counter;
    the model takes the successor of the largest one stored.) *)
Definition createPk (ds : list Doc) : ObjectId :=
  N.succ (foldr N.max 0%N (omap oid_of ds)).

Definition is_array (v : Value) : Prop :=
  match v with VArr _ => True | _ => False end.

Global Instance is_array_dec v : Decision (is_array v).
Proof. destruct v; apply _. Defined.

(** [insertOne(doc)]: a document without [_id] gets a generated one; the
    store refuses an array as [_id] and an [_id] that is taken.  The
    result is [insertedId]. *)
Definition insertOne (c : Collection) (doc : Doc) : M Value := λ st,
  let ds := documents c st in
  let id :=
    match doc !! "_id" with
    | Some id => id
    | None => VOid (createPk ds)
    end in
  if decide (is_array id) then (Throw InvalidId, st)
  else if decide (Exists (has_id id) ds) then (Throw DuplicateKey, st)
  else (Ok id, commit c (ds ++ [<["_id" := id]> doc]) st).

(** [find().toArray()] *)
Definition find_all (c : Collection) : M (list Doc) := λ st,
  (Ok (documents c st), st).

(** [find(filter).toArray()] *)
Definition find (c : Collection) (matches : Doc → bool) : M (list Doc) := λ st,
  (Ok (filter (λ d, matches d = true) (documents c st)), st).

(** [findOne({ _id: o })] *)
Definition findOne (c : Collection) (o : ObjectId) : M (option Doc) := λ st,
  (Ok (snd <$> list_find (has_id (VOid o)) (documents c st)), st).

Inductive Update : Type :=
  | USet (updates : Doc)              (* { $set: updates } *)
  | UInc (field : string) (by_ : Qc). (* { $inc: { field: by_ } } *)

Fixpoint has_char (c : ascii) (s : string) : bool :=
  match s with
  | EmptyString => false
  | String c' s' => bool_decide (c' = c) || has_char c s'
  end.

(** A key of [$set] that names a field of the document itself: not
    empty, no dotted path, no operator name. *)
Definition top_level (k : string) : bool :=
  match k with
  | EmptyString => false
  | String c _ => negb (bool_decide (c = "$"%char)) && negb (has_char "."%char k)
  end.

Definition top_level_keys (updates : Doc) : Prop :=
  map_Forall (λ k _, top_level k = true) updates.

Global Instance top_level_keys_dec updates : Decision (top_level_keys updates).
Proof. unfold top_level_keys. apply _. Defined.

(** [n / d] rounded to the nearest integer, a tie to the even one. *)
Definition round_half_even (n d : Z) : Z :=
  let q := n / d in
  let r := n mod d in
  if 2 * r <? d then q
  else if d <? 2 * r then q + 1
  else if Z.even q then q else q + 1.

(** The exponent [e] with [2^e <= n / d < 2^(e+1)], for [n] and [d]
    positive. *)
Definition floor_log2 (n d : Z) : Z :=
  let e := Z.log2 n - Z.log2 d in
  let below := if 0 <=? e then n <? 2 ^ e * d else n * 2 ^ (- e) <? d in
  if below then e - 1 else e.

(** The IEEE 754 binary64 number nearest to [q], ties to even: 53
    significant bits, the exponent not below -1022 (under it the
    subnormal numbers share the spacing 2^-1074).  There is no overflow
    to an infinity: one less than a stored double is in range. *)
Definition double_round (q : Qc) : Qc :=
  let n := Z.abs (Qnum q) in
  let d := Z.pos (Qden q) in
  if n =? 0 then q
  else
    let e := Z.max (floor_log2 n d) (-1022) in
    let magnitude : Q :=
      if 52 <=? e
      then inject_Z (round_half_even n (d * 2 ^ (e - 52)) * 2 ^ (e - 52))
      else Qmake (round_half_even (n * 2 ^ (52 - e)) d)
                 (Z.to_pos (2 ^ (52 - e))) in
    Q2Qc (Qred (if Qnum q <? 0 then Qopp magnitude else magnitude)).

(** The document after the update, or what the store throws: [$inc] adds
    to a number in double arithmetic, creates the field when it is absent
    and refuses any other value; [$set] sets the listed fields and refuses
    to change [_id]. *)
Definition apply_update (u : Update) (d : Doc) : Result Doc :=
  match u with
  | UInc f a =>
      match d !! f with
      | None => Ok (<[f := VNum a]> d)
      | Some (VNum q) => Ok (<[f := VNum (double_round (q + a)%Qc)]> d)
      | Some _ => Throw NonNumeric
      end
  | USet updates =>
      match updates !! "_id" with
      | Some id =>
          if decide (has_id id d) then Ok (updates ∪ d)
          else Throw ImmutableField
      | None => Ok (updates ∪ d)
      end
  end.

(** The first component of a dotted path. *)
Fixpoint first_component (k : string) : string :=
  match k with
  | EmptyString => EmptyString
  | String c k' =>
      if bool_decide (c = "."%char) then EmptyString
      else String c (first_component k')
  end.

(** A value with no fields and no elements to descend into. *)
Definition scalar (v : Value) : bool :=
  match v with
  | VArr _ | VObj _ => false
  | _ => true
  end.

(** The keys of [$set] that the store refuses on the document [d] it has
    matched: the empty path, the positional operator [$] with nothing in
    front of it, and a dotted path that goes through a field of [d]
    holding a scalar (the store cannot create a field inside it). *)
Definition refused_key (d : Doc) (k : string) : bool :=
  bool_decide (k = "") || bool_decide (k = "$")
  || (has_char "."%char k && top_level (first_component k)
      && match d !! first_component k with
         | Some v => scalar v
         | None => false
         end).

Definition refused (d updates : Doc) : Prop :=
  map_Exists (λ k _, refused_key d k = true) updates.

Global Instance refused_dec d updates : Decision (refused d updates).
Proof. unfold refused. apply _. Defined.

(** [updateOne({ _id: o }, u)]: the first document with that id is
    updated; a document the update leaves as it was is not written.  A
    [$set] with a key that is not a top-level field name is thrown back
    when it has a key the store refuses on the matched document;
    otherwise it is the platform's. *)
Definition updateOne `{Platform} (c : Collection) (o : ObjectId) (u : Update)
    : M UpdateResult := λ st,
  let ds := documents c st in
  let matched := list_find (has_id (VOid o)) ds in
  let interpreted :=
    match matched with
    | None => (Ok {| matchedCount := 0; modifiedCount := 0 |}, st)
    | Some (i, d) =>
        match apply_update u d with
        | Throw e => (Throw e, st)
        | Ok d' =>
            if decide (d' = d)
            then (Ok {| matchedCount := 1; modifiedCount := 0 |}, st)
            else (Ok {| matchedCount := 1; modifiedCount := 1 |},
                  commit c (<[i := d']> ds) st)
        end
    end in
  let paths (updates : Doc) :=
    match update_paths updates o ds with
    | Some (result, ds') =>
        (Ok result, if decide (ds' = ds) then st else commit c ds' st)
    | None => (Throw RejectedUpdate, st)
    end in
  match u with
  | UInc _ _ => interpreted
  | USet updates =>
      if decide (top_level_keys updates) then interpreted
      else
        match matched with
        | Some (_, d) =>
            if decide (refused d updates) then (Throw RejectedUpdate, st)
            else paths updates
        | None => paths updates
        end
  end.

(** ** Regular expressions

    [new RegExp(pattern, "i")] checks the pattern and the store matches
    it against the fields.  Both are interpreted here on the patterns
    made of ordinary ASCII characters, the wildcard [.] and a backslash
    in front of a syntax character; a pattern that ends in a lone
    backslash is malformed.  Every other pattern is handed to
    [regexp_engine]. *)

Definition syntax_character (c : ascii) : bool :=
  has_char c "^$\.*+?()[]{}|".

Definition ascii_character (c : ascii) : bool :=
  bool_decide (N_of_ascii c < 128)%N.

Inductive Atom : Type :=
  | Lit (c : ascii)
  | AnyChar.

Inductive Parsed : Type :=
  | Atoms (p : list Atom)
  | Malformed
  | Beyond.

Definition then_ (a : Atom) (rest : Parsed) : Parsed :=
  match rest with
  | Atoms p => Atoms (a :: p)
  | other => other
  end.

Fixpoint parse_pattern (s : string) : Parsed :=
  match s with
  | EmptyString => Atoms []
  | String c s' =>
      if bool_decide (c = "\"%char) then
        match s' with
        | EmptyString => Malformed
        | String e s'' =>
            if syntax_character e then then_ (Lit e) (parse_pattern s'')
            else Beyond
        end
      else if bool_decide (c = "."%char) then then_ AnyChar (parse_pattern s')
      else if syntax_character c || negb (ascii_character c) then Beyond
      else then_ (Lit c) (parse_pattern s')
  end.

(** Caseless comparison under the [i] flag: the upper-case letter of an
    ASCII lower-case letter, every other character itself. *)
Definition canonicalize (c : ascii) : ascii :=
  let n := N_of_ascii c in
  if bool_decide (97 ≤ n ≤ 122)%N then ascii_of_N (n - 32) else c.

(** The wildcard matches every character but the line feed. *)
Definition line_feed (c : ascii) : bool := bool_decide (c = ascii_of_N 10).

Definition atom_matches (a : Atom) (c : ascii) : bool :=
  match a with
  | Lit x => bool_decide (canonicalize x = canonicalize c)
  | AnyChar => negb (line_feed c)
  end.

Fixpoint matches_here (p : list Atom) (s : string) : bool :=
  match p, s with
  | [], _ => true
  | _ :: _, EmptyString => false
  | a :: p', String c s' => atom_matches a c && matches_here p' s'
  end.

(** Matching without anchors: a match may start anywhere in [s]. *)
Fixpoint matches_somewhere (p : list Atom) (s : string) : bool :=
  matches_here p s ||
  match s with
  | EmptyString => false
  | String _ s' => matches_somewhere p s'
  end.

Definition new_RegExp_i `{Platform} (pattern : string) : M (string → bool) :=
  match parse_pattern pattern with
  | Atoms p => mret (matches_somewhere p)
  | Malformed => throw SyntaxError
  | Beyond =>
      match regexp_engine pattern with
      | Some test => mret test
      | None => throw SyntaxError
      end
  end.

(** The query [{ field: { $regex: re } }] on the value of the field: a
    string that matches, or an array with a string element that matches. *)
Definition regex_field (re : string → bool) (v : option Value) : bool :=
  match v with
  | Some (VStr s) => re s
  | Some (VArr l) =>
      existsb (λ x, match x with VStr s => re s | _ => false end) l
  | _ => false
  end.

(** ** JavaScript objects *)

Definition Object_keys (o : Doc) : list string := (map_to_list o).*1.

(** An object literal [{ k1, k2, ... }] as the driver stores it: a
    property whose value is [undefined] is stored as null. *)
Definition object (props : list (string * option Value)) : Doc :=
  list_to_map (prod_map id (default VNull) <$> props).

(** ** The route handlers *)

Section handlers.
Context `{Platform}.

(** [PUT /api/lessons/:id/decrement] *)
Definition put_lesson_decrement (lessonId : string) : M Response :=
  try_catch
    (o ← new_ObjectId lessonId;
     lesson ← findOne lessonsCollection o;
     match lesson with
     | None => mret (json 404 "Lesson not found")
     | Some lesson =>
         if js_le_zero (lesson !! "space")
         then mret (json 400 "No spaces left for this lesson")
         else
           o' ← new_ObjectId lessonId;
           result ← updateOne lessonsCollection o' (UInc "space" (num (-1)));
           if bool_decide (modifiedCount result = 1%nat)
           then mret (json 200 "Lesson space decremented successfully")
           else mret (json 400 "Failed to update lesson space")
     end)
    (λ err, mret (json 500 "Server error")).

(** [GET /api/lessons] *)
Definition get_lessons : M Response :=
  try_catch
    (all ← find_all lessonsCollection;
     mret {| status := 200; body := Documents all |})
    (λ err, mret (json 500 "Server error")).

(** [POST /api/lessons] *)
Definition post_lessons (req_body : Doc) : M Response :=
  try_catch
    (let topic := req_body !! "topic" in
     let price := req_body !! "price" in
     let location := req_body !! "location" in
     let space := req_body !! "space" in
     let category := req_body !! "category" in
     let level := req_body !! "level" in
     let duration := req_body !! "duration" in
     let image := req_body !! "image" in
     let preview := req_body !! "preview" in
     let subject := req_body !! "subject" in
     if negb (truthy topic) || negb (truthy price) || negb (truthy location)
        || negb (truthy space) || negb (truthy category) || negb (truthy level)
        || negb (truthy duration) || negb (truthy image)
        || negb (truthy preview) || negb (truthy subject)
     then mret (json 400 "Missing required lesson fields")
     else
       let newLesson := object [
         ("topic", topic); ("price", price); ("location", location);
         ("space", space); ("category", category); ("level", level);
         ("duration", duration); ("image", image); ("preview", preview);
         ("subject", subject)] in
       insertedId ← insertOne lessonsCollection newLesson;
       mret {| status := 201;
               body := MessageId "Lesson added successfully" insertedId |})
    (λ err, mret (json 500 "Server error")).

(** [PUT /api/lessons/:id] *)
Definition put_lesson (lessonId : string) (updates : Doc) : M Response :=
  try_catch
    (if bool_decide (length (Object_keys updates) = 0%nat)
     then mret (json 400 "No fields provided to update")
     else
       o ← new_ObjectId lessonId;
       result ← updateOne lessonsCollection o (USet updates);
       if bool_decide (matchedCount result = 0%nat)
       then mret (json 404 "Lesson not found")
       else mret (json 200 "Lesson updated successfully"))
    (λ err, mret (json 500 "Server error")).

(** [POST /api/orders] *)
Definition post_orders (order : Doc) : M Response :=
  try_catch
    (_ ← insertOne ordersCollection order;
     mret (json 201 "Order saved successfully"))
    (λ err, mret (json 400 "Insert failed")).

(** [GET /api/lessons/search]; [query] is [req.query.q]. *)
Definition get_lessons_search (query : option string) : M Response :=
  try_catch
    (match query with
     | None | Some EmptyString => mret (json 400 "Search query is required")
     | Some q =>
         searchRegex ← new_RegExp_i q;
         results ← find lessonsCollection (λ d,
           regex_field searchRegex (d !! "topic")
           || regex_field searchRegex (d !! "category")
           || regex_field searchRegex (d !! "subject")
           || regex_field searchRegex (d !! "location")
           || regex_field searchRegex (d !! "level"));
         mret {| status := 200; body := Documents results |}
     end)
    (λ err, mret (json 500 "Server error")).

End handlers.

(** ** The notions the properties are stated with *)

(** A 24 character hex string. *)
Fixpoint hex_string (s : string) : bool :=
  match s with
  | EmptyString => true
  | String c s' => bool_decide (is_Some (hex_digit c)) && hex_string s'
  end.

Definition well_formed_id (s : string) : Prop :=
  String.length s = 24%nat ∧ hex_string s = true.

(** The ids of a collection are unique (the store's index on [_id]). *)
Definition unique_ids (ds : list Doc) : Prop :=
  NoDup ((λ d : Doc, d !! "_id") <$> ds).

(** The bound of the data model, [space >= 0], on a lesson. *)
Definition space_nonneg (d : Doc) : Prop :=
  ∃ q : Qc, d !! "space" = Some (VNum q) ∧ (0 ≤ q)%Qc.

(** The data model in full: [space] is a non-negative integer. *)
Definition space_natural (d : Doc) : Prop :=
  ∃ n : Z, 0 ≤ n ∧ d !! "space" = Some (VNum (num n)).

Definition lessons_natural (st : State) : Prop :=
  Forall space_natural (lessons st).

(** The ten required fields of a lesson. *)
Definition lesson_fields : list string :=
  ["topic"; "price"; "location"; "space"; "category"; "level"; "duration";
   "image"; "preview"; "subject"].

Definition all_truthy (req_body : Doc) : Prop :=
  Forall (λ f, truthy (req_body !! f) = true) lesson_fields.

Definition lower_case (c : ascii) : ascii :=
  let n := N_of_ascii c in
  if bool_decide (65 ≤ n ≤ 90)%N then ascii_of_N (n + 32) else c.

Fixpoint lower (s : string) : string :=
  match s with
  | EmptyString => EmptyString
  | String c s' => String (lower_case c) (lower s')
  end.

(** [s] contains [q] as a substring, case-insensitively: a piece of [s]
    is [q] up to the case of its letters. *)
Definition contains_ci (q s : string) : Prop :=
  ∃ pre mid post, s = pre +:+ mid +:+ post ∧ lower mid = lower q.

(** A field contains [q]: it holds a string that contains [q], or a list
    with such a string in it. *)
Definition field_contains (q : string) (v : option Value) : Prop :=
  match v with
  | Some (VStr s) => contains_ci q s
  | Some (VArr l) => ∃ s, VStr s ∈ l ∧ contains_ci q s
  | _ => False
  end.

(** The five fields the search looks at. *)
Definition search_fields : list string :=
  ["topic"; "category"; "subject"; "location"; "level"].

(** A query of ASCII characters, none of them a regular-expression
    syntax character. *)
Fixpoint plain (q : string) : bool :=
  match q with
  | EmptyString => true
  | String c q' =>
      negb (syntax_character c) && ascii_character c && plain q'
  end.

(** The pattern that matches the characters of [q] one by one. *)
Fixpoint literal (q : string) : list Atom :=
  match q with
  | EmptyString => []
  | String c q' => Lit c :: literal q'
  end.

(** ** A sample store *)

(** A platform that knows nothing beyond the interpreted fragment. *)
Definition bare : Platform := {|
  coerce_number := λ _, None;
  regexp_engine := λ _, None;
  update_paths := λ _ _ _, None;
|}.

Definition math_id : string := "65a1b2c3d4e5f60718293a4b".

Definition math_oid : ObjectId :=
  Eval vm_compute in default 0%N (ObjectId_of_string math_id).

(** The lesson of the specification's scenario, with the given space. *)
Definition math (space : Qc) : Doc :=
  list_to_map [
    ("_id", VOid math_oid);
    ("topic", VStr "Math"); ("price", VNum (num 10));
    ("location", VStr "Room1"); ("space", VNum space);
    ("category", VStr "Science"); ("level", VStr "Beginner");
    ("duration", VStr "1h"); ("image", VStr "math.png");
    ("preview", VStr "p"); ("subject", VStr "Math")].

Definition shop (space : Qc) : State :=
  {| lessons := [math space]; orders := []; writes := 0 |}.

(** The creation payload of the scenario, with two fields the handler
    does not ask for. *)
Definition math_payload : Doc :=
  list_to_map [
    ("topic", VStr "Math"); ("price", VNum (num 10));
    ("location", VStr "Room1"); ("space", VNum (num 5));
    ("category", VStr "Science"); ("level", VStr "Beginner");
    ("duration", VStr "1h"); ("image", VStr "math.png");
    ("preview", VStr "p"); ("subject", VStr "Math");
    ("_id", VStr "mine"); ("teacher", VStr "Ada")].

(** Membership in a list that is written out. *)
Ltac listed := repeat constructor.

(** ** Requests one after another *)

(** The same request sent [k] times, each one served to completion
    before the next: the answers in order and the store at the end. *)
Fixpoint repeat_request (h : M Response) (k : nat) (st : State)
    : list (Result Response) * State :=
  match k with
  | O => ([], st)
  | S k' =>
      let '(r, st1) := h st in
      let '(rs, st2) := repeat_request h k' st1 in
      (r :: rs, st2)
  end.

(** ** Further notions *)

(** [q] with a backslash put in front of every syntax character. *)
Fixpoint escape (q : string) : string :=
  match q with
  | EmptyString => EmptyString
  | String c q' =>
      if syntax_character c then String "\"%char (String c (escape q'))
      else String c (escape q')
  end.

(** A text of printable ASCII characters (space to tilde). *)
Definition printable (c : ascii) : bool :=
  bool_decide (32 ≤ N_of_ascii c ≤ 126)%N.

Fixpoint printable_string (q : string) : bool :=
  match q with
  | EmptyString => true
  | String c q' => printable c && printable_string q'
  end.

(** The ids of a collection, in storage order. *)
Definition ids (ds : list Doc) : list (option Value) :=
  (λ d : Doc, d !! "_id") <$> ds.

(** The answers of the decrement. *)
Definition decremented : Response :=
  json 200 "Lesson space decremented successfully".
Definition no_capacity : Response :=
  json 400 "No spaces left for this lesson".
Definition server_error : Response := json 500 "Server error".

(** The sample lesson without its space field. *)
Definition math_without_space : Doc := delete "space" (math (num 5)).

Definition shop_without_space : State :=
  {| lessons := [math_without_space]; orders := []; writes := 0 |}.

(** * Part II: properties *)

(** ** The structure of a handler run *)

Lemma bind_Ok {A B} (m : M A) (f : A → M B) a st st' :
  m st = (Ok a, st') → (m ≫= f) st = f a st'.
Proof. unfold mbind, M_bind. by intros ->. Qed.

Lemma bind_Throw {A B} (m : M A) (f : A → M B) e st st' :
  m st = (Throw e, st') → (m ≫= f) st = (Throw e, st').
Proof. unfold mbind, M_bind. by intros ->. Qed.

Lemma try_Ok {A} (m : M A) h a st st' :
  m st = (Ok a, st') → try_catch m h st = (Ok a, st').
Proof. unfold try_catch. by intros ->. Qed.

Lemma try_Throw {A} (m : M A) h e st st' :
  m st = (Throw e, st') → try_catch m h st = h e st'.
Proof. unfold try_catch. by intros ->. Qed.

(** ** Ids *)

Lemma hex_value_is_Some (s : string) (acc : N) :
  is_Some (hex_value acc s) ↔ hex_string s = true.
Proof.
  revert acc. induction s as [|c s IH]; intros acc; simpl.
  - split; eauto.
  - destruct (hex_digit c) as [d|].
    + rewrite IH. rewrite bool_decide_eq_true_2 by eauto. done.
    + rewrite bool_decide_eq_false_2 by (by intros [??]).
      split; [by intros [??]|done].
Qed.

Lemma ObjectId_of_string_is_Some (s : string) :
  is_Some (ObjectId_of_string s) ↔ well_formed_id s.
Proof.
  unfold ObjectId_of_string, well_formed_id. case_bool_decide as Hlen.
  - rewrite hex_value_is_Some. split; [by split|by intros [_ ?]].
  - split; [by intros [??]|by intros [? _]].
Qed.

Lemma ObjectId_of_string_None (s : string) :
  ObjectId_of_string s = None ↔ ¬ well_formed_id s.
Proof.
  rewrite <-ObjectId_of_string_is_Some, <-eq_None_not_Some. done.
Qed.

Lemma new_ObjectId_Ok s o st :
  ObjectId_of_string s = Some o → new_ObjectId s st = (Ok o, st).
Proof. unfold new_ObjectId. by intros ->. Qed.

Lemma new_ObjectId_Throw s st :
  ObjectId_of_string s = None → new_ObjectId s st = (Throw BSONError, st).
Proof. unfold new_ObjectId. by intros ->. Qed.

Lemma math_id_parses : ObjectId_of_string math_id = Some math_oid.
Proof. reflexivity. Qed.

(** ** Looking a document up by id *)

Lemma list_find_absent (id : Value) (ds : list Doc) :
  (∀ d, d ∈ ds → ¬ has_id id d) → list_find (has_id id) ds = None.
Proof.
  intros Hno. apply list_find_None, Forall_forall. exact Hno.
Qed.

Lemma list_find_present (id : Value) (ds : list Doc) (d : Doc) :
  unique_ids ds → d ∈ ds → has_id id d →
  ∃ i, ds !! i = Some d ∧ list_find (has_id id) ds = Some (i, d).
Proof.
  unfold unique_ids. intros Hnd Hin Hid.
  apply list_elem_of_lookup in Hin as [i Hi].
  exists i. split; [done|].
  apply list_find_Some. split_and!; [done..|].
  intros j d' Hj Hlt Hid'.
  assert (i = j) as ->; [|lia].
  eapply NoDup_lookup; [exact Hnd| |].
  - rewrite list_lookup_fmap, Hi. simpl. exact (f_equal _ Hid).
  - rewrite list_lookup_fmap, Hj. simpl. unfold has_id in *. congruence.
Qed.

(** ** Numbers *)

Lemma num_minus_one (q : Qc) : (q + num (-1))%Qc = (q - 1)%Qc.
Proof. reflexivity. Qed.

Lemma num_Qc_of_Z (z : Z) : num z = Qc_of_Z z.
Proof. apply Qc_is_canon. unfold num. simpl. apply Qred_correct. Qed.

Lemma num_le (a b : Z) : (num a ≤ num b)%Qc ↔ a ≤ b.
Proof. rewrite !num_Qc_of_Z. symmetry. apply Z2Qc_inj_le. Qed.

Lemma num_pred (n : Z) : (num n - 1)%Qc = num (n - 1).
Proof. by rewrite !num_Qc_of_Z, Z2Qc_inj_sub, Z2Qc_inj_1. Qed.

Lemma num_lt (a b : Z) : (num a < num b)%Qc ↔ a < b.
Proof. rewrite !num_Qc_of_Z. symmetry. apply Z2Qc_inj_lt. Qed.

Lemma num_inj (a b : Z) : num a = num b → a = b.
Proof. rewrite !num_Qc_of_Z. apply Z2Qc_inj. Qed.

(** ** Doubles *)

Lemma round_half_even_one (n : Z) : round_half_even n 1 = n.
Proof.
  unfold round_half_even. rewrite Z.div_1_r, Z.mod_1_r. reflexivity.
Qed.

Lemma round_half_even_nonneg (n d : Z) :
  0 ≤ n → 0 < d → 0 ≤ round_half_even n d.
Proof.
  intros Hn Hd. unfold round_half_even.
  pose proof (Z.div_pos n d Hn Hd).
  repeat case_match; lia.
Qed.

Lemma this_num (z : Z) : this (num z) = inject_Z z.
Proof. unfold num. simpl. apply inject_Z_Qred. Qed.

Lemma Q2Qc_Qred_integer (m : Z) : Q2Qc (Qred (inject_Z m)) = num m.
Proof. by rewrite inject_Z_Qred. Qed.

Lemma Q2Qc_Qred_scaled (m : Z) (s : positive) :
  Q2Qc (Qred (Qmake (m * Z.pos s) s)) = num m.
Proof.
  apply Qc_is_canon. simpl. rewrite !Qred_correct.
  unfold Qeq. simpl. lia.
Qed.

Lemma floor_log2_le (n : Z) : floor_log2 n 1 ≤ Z.log2 n.
Proof.
  unfold floor_log2. change (Z.log2 1) with 0. rewrite Z.sub_0_r.
  repeat case_match; lia.
Qed.

(** Rounding at work: 2^53 + 1 and 10^16 - 1 are ties and go to the
    even neighbour, 2^53 + 3 goes up, a half is kept, a tenth is not a
    double. *)
Example double_round_examples :
  double_round (num (2 ^ 53 + 1)) = num (2 ^ 53)
  ∧ double_round (num (2 ^ 53 + 3)) = num (2 ^ 53 + 4)
  ∧ double_round (num (10 ^ 16) - 1) = num (10 ^ 16)
  ∧ double_round (num (-3)) = num (-3)
  ∧ double_round (Q2Qc (1 # 2) - 1) = Q2Qc (-1 # 2)
  ∧ double_round (Q2Qc (1 # 10)) = Q2Qc (3602879701896397 # 2 ^ 55).
Proof. split_and!; vm_compute; reflexivity. Qed.

(** Rounding an integer that is not negative gives one. *)
Lemma double_round_natural (z : Z) :
  0 ≤ z → ∃ m, 0 ≤ m ∧ double_round (num z) = num m.
Proof.
  intros Hz. unfold double_round. rewrite this_num. simpl.
  destruct (Z.abs z =? 0) eqn:Hzero; [by exists z|].
  rewrite Z.abs_eq by done.
  rewrite (proj2 (Z.ltb_ge z 0)) by done.
  set (e := Z.max (floor_log2 z 1) (-1022)).
  destruct (52 <=? e) eqn:He.
  - apply Z.leb_le in He. eexists. split; [|apply Q2Qc_Qred_integer].
    apply Z.mul_nonneg_nonneg; [|apply Z.pow_nonneg; lia].
    apply round_half_even_nonneg; [done|].
    rewrite Z.mul_1_l. apply Z.pow_pos_nonneg; lia.
  - apply Z.leb_gt in He. exists z. split; [done|].
    rewrite round_half_even_one.
    assert (0 < 2 ^ (52 - e)) as Hpos by (apply Z.pow_pos_nonneg; lia).
    rewrite <-(Z2Pos.id (2 ^ (52 - e))) at 1 by done.
    apply Q2Qc_Qred_scaled.
Qed.

(** The integers from 0 to 2^53 are doubles. *)
Lemma double_round_exact (z : Z) :
  0 ≤ z ≤ 2 ^ 53 → double_round (num z) = num z.
Proof.
  intros [Hz Hbound]. unfold double_round. rewrite this_num. simpl.
  destruct (Z.abs z =? 0) eqn:Hzero; [done|].
  rewrite Z.abs_eq by done.
  rewrite (proj2 (Z.ltb_ge z 0)) by done.
  set (e := Z.max (floor_log2 z 1) (-1022)).
  assert (e ≤ Z.log2 z) as Hlog.
  { unfold e. pose proof (floor_log2_le z). pose proof (Z.log2_nonneg z). lia. }
  destruct (52 <=? e) eqn:He.
  - apply Z.leb_le in He. rewrite Z.mul_1_l.
    assert (Z.log2 z ≤ 53) as Hle.
    { change 53 with (Z.log2 (2 ^ 53)). by apply Z.log2_le_mono. }
    rewrite Q2Qc_Qred_integer. f_equal.
    assert (e = 52 ∨ e = 53) as [->| ->] by lia.
    + change (2 ^ (52 - 52)) with 1. rewrite round_half_even_one. lia.
    + assert (2 ^ 53 ≤ z) as Hge.
      { assert (53 ≤ Z.log2 z) as H53 by lia.
        apply Z.log2_le_pow2 in H53; lia. }
      assert (z = 2 ^ 53) as -> by lia. reflexivity.
  - apply Z.leb_gt in He.
    rewrite round_half_even_one.
    assert (0 < 2 ^ (52 - e)) as Hpos by (apply Z.pow_pos_nonneg; lia).
    rewrite <-(Z2Pos.id (2 ^ (52 - e))) at 1 by done.
    apply Q2Qc_Qred_scaled.
Qed.

(** One less than an integer from 1 to 2^53, in double arithmetic. *)
Lemma double_round_pred (n : Z) :
  0 < n ≤ 2 ^ 53 →
  double_round (num n - 1)%Qc = num (n - 1)
  ∧ double_round (num n - 1)%Qc ≠ num n.
Proof.
  intros Hn. rewrite num_pred, double_round_exact by lia.
  split; [done|]. intros Heq%num_inj. lia.
Qed.

Lemma space_natural_nonneg (d : Doc) : space_natural d → space_nonneg d.
Proof.
  intros (n & Hn & Hd). exists (num n). split; [done|].
  by apply (num_le 0 n).
Qed.

Lemma space_natural_insert (d : Doc) (n : Z) :
  0 ≤ n → space_natural (<["space" := VNum (num n)]> d).
Proof. intros Hn. exists n. by rewrite lookup_insert_eq. Qed.

Lemma shop_natural (n : Z) : 0 ≤ n → lessons_natural (shop (num n)).
Proof. intros Hn. apply Forall_singleton. by exists n. Qed.

Lemma shop_unique (q : Qc) : unique_ids (lessons (shop q)).
Proof. apply NoDup_singleton. Qed.

(** ** The decrement *)

Section decrement.
Context `{Platform}.

Lemma js_le_zero_num (q : Qc) :
  js_le_zero (Some (VNum q)) = bool_decide (q ≤ 0)%Qc.
Proof. reflexivity. Qed.

(** The targeted update [{ $inc: { space: -1 } }] on a lesson that holds
    a number: the store writes the rounded difference, unless that is
    the number the lesson holds already. *)
Lemma updateOne_inc_space (st : State) (o : ObjectId) (i : nat) (d : Doc) (q : Qc) :
  list_find (has_id (VOid o)) (lessons st) = Some (i, d) →
  d !! "space" = Some (VNum q) →
  updateOne lessonsCollection o (UInc "space" (num (-1))) st
  = if decide (double_round (q - 1) = q)
    then (Ok {| matchedCount := 1; modifiedCount := 0 |}, st)
    else (Ok {| matchedCount := 1; modifiedCount := 1 |},
          {| lessons :=
               <[i := <["space" := VNum (double_round (q - 1))]> d]> (lessons st);
             orders := orders st; writes := S (writes st) |}).
Proof.
  intros Hfind Hspace. unfold updateOne. simpl. rewrite Hfind. simpl.
  rewrite Hspace, num_minus_one.
  destruct (decide (double_round (q - 1) = q)) as [Heq|Hne].
  - rewrite Heq, insert_id by done. by rewrite decide_True.
  - rewrite decide_False; [done|]. intros Heq. apply Hne.
    apply (f_equal (λ m : Doc, m !! "space")) in Heq.
    rewrite lookup_insert_eq, Hspace in Heq. by injection Heq.
Qed.

(** The handler on a stored lesson that holds a number above 0. *)
Lemma decrement_positive_space (st : State) (lessonId : string) (o : ObjectId)
    (i : nat) (d : Doc) (q : Qc) :
  ObjectId_of_string lessonId = Some o →
  list_find (has_id (VOid o)) (lessons st) = Some (i, d) →
  d !! "space" = Some (VNum q) →
  (0 < q)%Qc →
  put_lesson_decrement lessonId st
  = if decide (double_round (q - 1) = q)
    then (Ok (json 400 "Failed to update lesson space"), st)
    else (Ok (json 200 "Lesson space decremented successfully"),
          {| lessons :=
               <[i := <["space" := VNum (double_round (q - 1))]> d]> (lessons st);
             orders := orders st; writes := S (writes st) |}).
Proof.
  intros Hid Hfind Hspace Hpos.
  unfold put_lesson_decrement, try_catch.
  erewrite bind_Ok by (by apply new_ObjectId_Ok).
  unfold mbind at 1, M_bind, findOne. simpl. rewrite Hfind. simpl.
  rewrite Hspace, js_le_zero_num, bool_decide_eq_false_2
    by (by apply Qclt_not_le).
  erewrite bind_Ok by (by apply new_ObjectId_Ok).
  unfold mbind, M_bind.
  rewrite (updateOne_inc_space st o i d q) by done.
  by destruct (decide (double_round (q - 1) = q)).
Qed.

(** C4. A decrement on a well-formed id that no stored lesson carries
    answers 404 "Lesson not found" and writes nothing: the state is the
    one before the request. *)
Theorem decrement_not_found (st : State) (lessonId : string) (o : ObjectId) :
  ObjectId_of_string lessonId = Some o →
  (∀ d, d ∈ lessons st → ¬ has_id (VOid o) d) →
  put_lesson_decrement lessonId st = (Ok (json 404 "Lesson not found"), st).
Proof.
  intros Hid Hno. unfold put_lesson_decrement.
  apply try_Ok.
  erewrite bind_Ok by (by apply new_ObjectId_Ok).
  unfold mbind at 1, M_bind, findOne. simpl.
  by rewrite (list_find_absent _ _ Hno).
Qed.

(** C2 (as amended). A decrement on a stored lesson whose space is a
    number [N > 0] subtracts 1 in double arithmetic.  When the rounded
    difference is not [N] itself, the answer is 200 "Lesson space
    decremented successfully" after exactly one write: the lesson's space
    becomes the rounded difference, its other fields, the other lessons
    and the orders stay as they were.  When the rounded difference is [N],
    nothing is written and the answer is 400 "Failed to update lesson
    space".  For an integer [N] up to 2^53 the rounded difference is
    [N - 1] exactly, so that the first case applies. *)
Theorem decrement_success (st : State) (lessonId : string) (o : ObjectId)
    (d : Doc) (N : Qc) :
  ObjectId_of_string lessonId = Some o →
  unique_ids (lessons st) →
  d ∈ lessons st →
  has_id (VOid o) d →
  d !! "space" = Some (VNum N) →
  (0 < N)%Qc →
  (∃ i, lessons st !! i = Some d ∧
     put_lesson_decrement lessonId st
     = if decide (double_round (N - 1) = N)
       then (Ok (json 400 "Failed to update lesson space"), st)
       else (Ok (json 200 "Lesson space decremented successfully"),
             {| lessons :=
                  <[i := <["space" := VNum (double_round (N - 1))]> d]>
                    (lessons st);
                orders := orders st;
                writes := S (writes st) |}))
  ∧ (∀ n : Z, N = num n → n ≤ 2 ^ 53 →
       double_round (N - 1) = num (n - 1) ∧ double_round (N - 1) ≠ N).
Proof.
  intros Hid Huniq Hin Hd Hspace Hpos. split.
  - destruct (list_find_present _ _ _ Huniq Hin Hd) as (i & Hi & Hfind).
    exists i. split; [done|].
    by apply (decrement_positive_space st lessonId o).
  - intros n -> Hn. apply double_round_pred.
    split; [|done]. by apply (num_lt 0 n).
Qed.

(** C3. A decrement on a stored lesson whose space is a number [N <= 0]
    answers 400 "No spaces left for this lesson" and writes nothing: the
    state is the one before the request. *)
Theorem decrement_no_capacity (st : State) (lessonId : string) (o : ObjectId)
    (d : Doc) (N : Qc) :
  ObjectId_of_string lessonId = Some o →
  unique_ids (lessons st) →
  d ∈ lessons st →
  has_id (VOid o) d →
  d !! "space" = Some (VNum N) →
  (N ≤ 0)%Qc →
  put_lesson_decrement lessonId st
  = (Ok (json 400 "No spaces left for this lesson"), st).
Proof.
  intros Hid Huniq Hin Hd Hspace Hle.
  destruct (list_find_present _ _ _ Huniq Hin Hd) as (i & Hi & Hfind).
  unfold put_lesson_decrement. apply try_Ok.
  erewrite bind_Ok by (by apply new_ObjectId_Ok).
  unfold mbind at 1, M_bind, findOne. simpl. rewrite Hfind. simpl.
  by rewrite Hspace, js_le_zero_num, bool_decide_eq_true_2.
Qed.

Lemma decrement_keeps_natural (st : State) (lessonId : string) :
  lessons_natural st →
  lessons_natural (put_lesson_decrement lessonId st).2.
Proof.
  intros Hinv. unfold put_lesson_decrement.
  destruct (ObjectId_of_string lessonId) as [o|] eqn:Hid; cycle 1.
  { by erewrite try_Throw by (by apply bind_Throw, new_ObjectId_Throw). }
  destruct (list_find (has_id (VOid o)) (lessons st)) as [[i d]|] eqn:Hfind;
    cycle 1.
  { erewrite try_Ok; [done|].
    erewrite bind_Ok by (by apply new_ObjectId_Ok).
    unfold mbind at 1, M_bind, findOne. simpl. by rewrite Hfind. }
  pose proof Hfind as (Hi & _ & _)%list_find_Some.
  destruct (proj1 (Forall_lookup _ _) Hinv i d Hi) as (n & Hn & Hspace).
  destruct (decide (n ≤ 0)) as [Hle|Hgt].
  - erewrite try_Ok; [done|].
    erewrite bind_Ok by (by apply new_ObjectId_Ok).
    unfold mbind at 1, M_bind, findOne. simpl. rewrite Hfind. simpl.
    rewrite Hspace, js_le_zero_num.
    by rewrite bool_decide_eq_true_2 by (by apply (num_le n 0)).
  - fold (put_lesson_decrement lessonId).
    rewrite (decrement_positive_space st lessonId o i d (num n))
      by (done || apply (num_lt 0 n); lia).
    destruct (decide (double_round (num n - 1) = num n)); [done|].
    unfold lessons_natural. simpl.
    destruct (double_round_natural (n - 1)) as (m & Hm & Hround); [lia|].
    rewrite num_pred, Hround. apply Forall_insert; [done|].
    by apply space_natural_insert.
Qed.

End decrement.

(** ** The partial update *)

Lemma Object_keys_empty (o : Doc) : length (Object_keys o) = 0%nat ↔ o = ∅.
Proof.
  unfold Object_keys. rewrite length_fmap, length_zero_iff_nil.
  apply map_to_list_empty_iff.
Qed.

Lemma lookup_set_listed (updates d : Doc) (k : string) (v : Value) :
  updates !! k = Some v → (updates ∪ d) !! k = Some v.
Proof. apply lookup_union_Some_l. Qed.

Lemma lookup_set_other (updates d : Doc) (k : string) :
  updates !! k = None → (updates ∪ d) !! k = d !! k.
Proof. apply lookup_union_r. Qed.

Section update.
Context `{Platform}.

Lemma put_lesson_empty (st : State) (lessonId : string) :
  put_lesson lessonId ∅ st = (Ok (json 400 "No fields provided to update"), st).
Proof. reflexivity. Qed.

Lemma put_lesson_nonempty (st : State) (lessonId : string) (updates : Doc) :
  updates ≠ ∅ →
  put_lesson lessonId updates st
  = try_catch
      (o ← new_ObjectId lessonId;
       result ← updateOne lessonsCollection o (USet updates);
       if bool_decide (matchedCount result = 0%nat)
       then mret (json 404 "Lesson not found")
       else mret (json 200 "Lesson updated successfully"))
      (λ err, mret (json 500 "Server error")) st.
Proof.
  intros Hne. unfold put_lesson.
  by rewrite bool_decide_eq_false_2 by (by rewrite Object_keys_empty).
Qed.

(** The targeted update [{ $set: updates }] on a stored lesson, when the
    keys are top-level field names and [_id], if it is listed, comes with
    the value the lesson has. *)
Lemma updateOne_set_own_id (st : State) (o : ObjectId) (i : nat)
    (d updates : Doc) :
  list_find (has_id (VOid o)) (lessons st) = Some (i, d) →
  top_level_keys updates →
  (∀ id, updates !! "_id" = Some id → has_id id d) →
  ∃ modified st',
    updateOne lessonsCollection o (USet updates) st
    = (Ok {| matchedCount := 1; modifiedCount := modified |}, st') ∧
    lessons st' = <[i := updates ∪ d]> (lessons st) ∧
    orders st' = orders st ∧
    writes st' = (writes st + modified)%nat ∧
    (modified = 1%nat ↔ updates ∪ d ≠ d).
Proof.
  intros Hfind Htop Hid. unfold updateOne. simpl.
  rewrite decide_True by done. rewrite Hfind. simpl.
  assert (match updates !! "_id" with
          | Some id =>
              if decide (has_id id d) then Ok (updates ∪ d)
              else Throw ImmutableField
          | None => Ok (updates ∪ d)
          end = Ok (updates ∪ d)) as ->.
  { destruct (updates !! "_id") as [id|]; [|done].
    by rewrite decide_True by (by apply Hid). }
  apply list_find_Some in Hfind as (Hi & _ & _).
  destruct (decide (updates ∪ d = d)) as [Heq|Hne].
  - exists 0%nat, st. split_and!; [done| |done|lia|].
    + by rewrite Heq, list_insert_id.
    + split; [lia|done].
  - exists 1%nat. eexists. split_and!; [done|done|done|simpl; lia|done].
Qed.

Lemma updateOne_set (st : State) (o : ObjectId) (i : nat) (d updates : Doc) :
  list_find (has_id (VOid o)) (lessons st) = Some (i, d) →
  top_level_keys updates →
  updates !! "_id" = None →
  ∃ modified st',
    updateOne lessonsCollection o (USet updates) st
    = (Ok {| matchedCount := 1; modifiedCount := modified |}, st') ∧
    lessons st' = <[i := updates ∪ d]> (lessons st) ∧
    orders st' = orders st ∧
    writes st' = (writes st + modified)%nat ∧
    (modified = 1%nat ↔ updates ∪ d ≠ d).
Proof.
  intros Hfind Htop Hid. apply updateOne_set_own_id; [done..|].
  intros id Hsome. by rewrite Hid in Hsome.
Qed.





(** An update of the lessons leaves the orders alone. *)
Lemma updateOne_orders (o : ObjectId) (u : Update) (st : State) :
  orders (updateOne lessonsCollection o u st).2 = orders st.
Proof.
  unfold updateOne. repeat case_match; done.
Qed.


(** C9 (as amended). A request whose id is not a 24 character hex string
    is answered 500 "Server error" with nothing written, by the decrement
    always and by the partial update whenever its mapping is not empty. *)
Theorem malformed_id_server_error (st : State) (lessonId : string) :
  ¬ well_formed_id lessonId →
  put_lesson_decrement lessonId st = (Ok (json 500 "Server error"), st)
  ∧ ∀ updates : Doc, updates ≠ ∅ →
      put_lesson lessonId updates st = (Ok (json 500 "Server error"), st).
Proof.
  intros Hbad%ObjectId_of_string_None. split.
  - unfold put_lesson_decrement.
    erewrite try_Throw; [done|].
    by apply bind_Throw, new_ObjectId_Throw.
  - intros updates Hne. rewrite put_lesson_nonempty by done.
    erewrite try_Throw; [done|].
    by apply bind_Throw, new_ObjectId_Throw.
Qed.


Lemma update_keeps_natural (st : State) (lessonId : string) (updates : Doc) :
  lessons_natural st →
  top_level_keys updates →
  (updates !! "space" = None ∨ space_natural updates) →
  lessons_natural (put_lesson lessonId updates st).2.
Proof.
  intros Hinv Htop Hspace.
  destruct (decide (updates = ∅)) as [->|Hne]; [done|].
  rewrite put_lesson_nonempty by done.
  destruct (ObjectId_of_string lessonId) as [o|] eqn:Hid; cycle 1.
  { by erewrite try_Throw by (by apply bind_Throw, new_ObjectId_Throw). }
  unfold try_catch. erewrite bind_Ok by (by apply new_ObjectId_Ok).
  unfold mbind, M_bind, updateOne. simpl.
  rewrite decide_True by done.
  destruct (list_find (has_id (VOid o)) (lessons st)) as [[i d]|] eqn:Hfind;
    [|done].
  apply list_find_Some in Hfind as (Hi & _ & _).
  assert (space_natural (updates ∪ d)) as Hnew.
  { destruct Hspace as [Hnone|(n & Hn & Hsome)].
    - destruct (proj1 (Forall_lookup _ _) Hinv i d Hi) as (n & Hn & Hd).
      exists n. split; [done|]. by rewrite lookup_set_other.
    - exists n. split; [done|]. by apply lookup_set_listed. }
  assert (lessons_natural
            (commit lessonsCollection (<[i := updates ∪ d]> (lessons st)) st))
    as Hcommit by (by apply Forall_insert).
  destruct (updates !! "_id") as [id|];
    [destruct (decide (has_id id d)); [|done]|];
    by destruct (decide (updates ∪ d = d)).
Qed.

End update.

(** ** Inserting *)

Lemma oid_of_has_id (o : ObjectId) (d : Doc) :
  has_id (VOid o) d → oid_of d = Some o.
Proof. unfold has_id, oid_of. by intros ->. Qed.

Lemma foldr_max_ge (l : list N) (x : N) : x ∈ l → (x ≤ foldr N.max 0 l)%N.
Proof.
  induction l as [|y l IH]; [by intros ?%elem_of_nil|].
  intros [->|Hin%IH]%elem_of_cons; simpl; lia.
Qed.

(** The generated id is the id of no stored document. *)
Lemma createPk_fresh (ds : list Doc) :
  ¬ Exists (has_id (VOid (createPk ds))) ds.
Proof.
  rewrite Exists_exists. intros (d & Hin & Hid%oid_of_has_id).
  assert (createPk ds ∈ omap oid_of ds) as Hmem
    by (apply list_elem_of_omap; eauto).
  apply foldr_max_ge in Hmem. unfold createPk in Hmem. lia.
Qed.

(** Inserting a document that brings no [_id]. *)
Lemma insertOne_fresh (c : Collection) (doc : Doc) (st : State) :
  doc !! "_id" = None →
  insertOne c doc st
  = (Ok (VOid (createPk (documents c st))),
     commit c (documents c st
               ++ [<["_id" := VOid (createPk (documents c st))]> doc]) st).
Proof.
  intros Hnone. unfold insertOne. rewrite Hnone. simpl.
  by rewrite decide_False by apply createPk_fresh.
Qed.

(** Inserting a document that brings an [_id] the store accepts. *)
Lemma insertOne_with_id (c : Collection) (doc : Doc) (id : Value) (st : State) :
  doc !! "_id" = Some id →
  ¬ is_array id →
  ¬ Exists (has_id id) (documents c st) →
  insertOne c doc st = (Ok id, commit c (documents c st ++ [doc]) st).
Proof.
  intros Hid Harr Hnew. unfold insertOne. rewrite Hid.
  rewrite !decide_False by done. by rewrite insert_id.
Qed.

(** A failed insert leaves the store as it was. *)
Lemma insertOne_Throw (c : Collection) (doc : Doc) (e : Exn) (st st' : State) :
  insertOne c doc st = (Throw e, st') → st' = st.
Proof.
  unfold insertOne. repeat case_match; intros [=]; by subst.
Qed.

(** ** Creating a lesson *)

Lemma id_not_lesson_field : "_id" ∉ lesson_fields.
Proof. by apply (bool_decide_unpack _). Qed.

Lemma all_truthy_or_falsy (req_body : Doc) :
  all_truthy req_body
  ∨ ∃ f, f ∈ lesson_fields ∧ truthy (req_body !! f) = false.
Proof.
  unfold all_truthy.
  destruct (decide (Forall (λ f, truthy (req_body !! f) = true) lesson_fields))
    as [|Hnot]; [by left|right].
  apply not_Forall_Exists, Exists_exists in Hnot as (f & Hf & Hfalsy);
    [|apply _].
  exists f. split; [done|]. by apply not_true_is_false.
Qed.

Lemma post_lessons_rejects (st : State) (req_body : Doc) (f : string) :
  f ∈ lesson_fields →
  truthy (req_body !! f) = false →
  post_lessons req_body st
  = (Ok (json 400 "Missing required lesson fields"), st).
Proof.
  intros Hf Hfalsy. unfold post_lessons, try_catch, lesson_fields in *.
  repeat (apply elem_of_cons in Hf as [->|Hf]);
    [..|by apply elem_of_nil in Hf];
    rewrite Hfalsy; simpl; by rewrite ?orb_true_r.
Qed.

Lemma post_lessons_accepts (st : State) (req_body : Doc) :
  all_truthy req_body →
  ∃ stored : Doc,
    post_lessons req_body st
    = (Ok {| status := 201;
             body := MessageId "Lesson added successfully"
                       (VOid (createPk (lessons st))) |},
       {| lessons := lessons st ++ [stored];
          orders := orders st;
          writes := S (writes st) |}) ∧
    stored !! "_id" = Some (VOid (createPk (lessons st))) ∧
    (∀ f, f ∈ lesson_fields → stored !! f = req_body !! f) ∧
    (∀ k, k ≠ "_id" → k ∉ lesson_fields → stored !! k = None).
Proof.
  intros Hall.
  assert (∀ f, f ∈ lesson_fields → truthy (req_body !! f) = true) as Htruthy
    by (by apply Forall_forall).
  assert (∀ f, f ∈ lesson_fields → ∃ v, req_body !! f = Some v) as Hsome.
  { intros f Hf. specialize (Htruthy f Hf).
    destruct (req_body !! f); [eauto|done]. }
  unfold lesson_fields in *.
  destruct (Hsome "topic") as [topic Htopic]; [listed|].
  destruct (Hsome "price") as [price Hprice]; [listed|].
  destruct (Hsome "location") as [location Hlocation]; [listed|].
  destruct (Hsome "space") as [space Hspace]; [listed|].
  destruct (Hsome "category") as [category Hcategory]; [listed|].
  destruct (Hsome "level") as [level Hlevel]; [listed|].
  destruct (Hsome "duration") as [duration Hduration]; [listed|].
  destruct (Hsome "image") as [image Himage]; [listed|].
  destruct (Hsome "preview") as [preview Hpreview]; [listed|].
  destruct (Hsome "subject") as [subject Hsubject]; [listed|].
  eexists. split; [|split_and!].
  - unfold post_lessons. apply try_Ok.
    rewrite !Htruthy by listed. simpl.
    erewrite bind_Ok by (by apply insertOne_fresh).
    reflexivity.
  - apply lookup_insert_eq.
  - intros f Hf.
    rewrite lookup_insert_ne by (intros <-; by apply id_not_lesson_field).
    rewrite Htopic, Hprice, Hlocation, Hspace, Hcategory, Hlevel,
      Hduration, Himage, Hpreview, Hsubject.
    repeat (apply elem_of_cons in Hf as [->|Hf]);
      [..|by apply elem_of_nil in Hf]; by rewrite ?Htopic, ?Hprice,
        ?Hlocation, ?Hspace, ?Hcategory, ?Hlevel, ?Hduration, ?Himage,
        ?Hpreview, ?Hsubject.
  - intros k Hid Hk. rewrite lookup_insert_ne by done.
    apply not_elem_of_list_to_map. rewrite <-list_fmap_compose. exact Hk.
Qed.

(** C5. A creation payload in which one of the ten required fields is
    missing or falsy (null, false, the number 0, the empty string) is
    answered 400 and nothing is stored; a payload with the ten fields
    truthy is answered 201 with the id of the record that was stored. *)
Theorem post_lessons_validates (st : State) (req_body : Doc) :
  ((∃ f, f ∈ lesson_fields ∧ truthy (req_body !! f) = false) →
   post_lessons req_body st
   = (Ok (json 400 "Missing required lesson fields"), st))
  ∧ (all_truthy req_body →
     ∃ (id : Value) (stored : Doc),
       post_lessons req_body st
       = (Ok {| status := 201;
                body := MessageId "Lesson added successfully" id |},
          {| lessons := lessons st ++ [stored];
             orders := orders st;
             writes := S (writes st) |}) ∧
       stored !! "_id" = Some id)
  ∧ truthy None = false
  ∧ truthy (Some VNull) = false
  ∧ truthy (Some (VBool false)) = false
  ∧ truthy (Some (VNum (num 0))) = false
  ∧ truthy (Some (VStr "")) = false.
Proof.
  split_and!; try reflexivity.
  - intros (f & Hf & Hfalsy). by eapply post_lessons_rejects.
  - intros Hall.
    destruct (post_lessons_accepts st req_body Hall)
      as (stored & Hrun & Hid & _).
    eauto.
Qed.

(** C10. When the ten required fields of the payload are truthy, the
    record that is stored has the generated id, the ten fields with the
    values of the payload, and nothing else: whatever else the payload
    carried is not stored. *)
Theorem post_lessons_stores_ten_fields (st : State) (req_body : Doc) :
  all_truthy req_body →
  ∃ (o : ObjectId) (stored : Doc) (r : Response),
    post_lessons req_body st
    = (Ok r, {| lessons := lessons st ++ [stored];
                orders := orders st;
                writes := S (writes st) |}) ∧
    (∀ k, stored !! k =
          if decide (k = "_id") then Some (VOid o)
          else if decide (k ∈ lesson_fields) then req_body !! k
          else None).
Proof.
  intros Hall.
  destruct (post_lessons_accepts st req_body Hall)
    as (stored & Hrun & Hid & Hfields & Hrest).
  eexists _, stored, _. split; [exact Hrun|].
  intros k. destruct (decide (k = "_id")) as [->|Hk]; [done|].
  destruct (decide (k ∈ lesson_fields)); auto.
Qed.

Lemma insert_keeps_natural (st : State) (req_body : Doc) :
  lessons_natural st →
  space_natural req_body →
  lessons_natural (post_lessons req_body st).2.
Proof.
  intros Hinv (n & Hn & Hspace).
  destruct (all_truthy_or_falsy req_body) as [Hall|(f & Hf & Hfalsy)].
  - destruct (post_lessons_accepts st req_body Hall)
      as (stored & -> & _ & Hfields & _).
    apply Forall_app. split; [done|].
    apply Forall_singleton. exists n. split; [done|].
    rewrite Hfields by listed. done.
  - by erewrite post_lessons_rejects.
Qed.

(** ** Remaining capacity *)

Section capacity.
Context `{Platform}.

(** C1 (as amended). On a store in which the space of every lesson is a
    non-negative integer, a decrement leaves it so, whatever the id: it
    never takes space below zero.  Insert and partial update (with
    top-level field names) store the space they are given: they leave it
    so when the payload's space is a non-negative integer, or, for the
    partial update, when the mapping does not list space. *)
Theorem capacity_invariant (st : State) :
  lessons_natural st →
  (∀ lessonId, lessons_natural (put_lesson_decrement lessonId st).2)
  ∧ (∀ req_body, space_natural req_body →
       lessons_natural (post_lessons req_body st).2)
  ∧ (∀ lessonId updates, top_level_keys updates →
       updates !! "space" = None ∨ space_natural updates →
       lessons_natural (put_lesson lessonId updates st).2).
Proof.
  intros Hinv. split_and!.
  - intros lessonId. by apply decrement_keeps_natural.
  - intros req_body. by apply insert_keeps_natural.
  - intros lessonId updates. by apply update_keeps_natural.
Qed.

End capacity.

(** ** Saving an order *)

(** C8. The order handler stores the JSON object it is given as it is,
    without looking at its fields: an object without [_id] is stored with
    a generated id added, an object with an [_id] the store accepts is
    stored unchanged, and the answer is 201 "Order saved successfully".
    Whenever the store's insert fails, the answer is 400 "Insert failed"
    and nothing is stored.  No request is answered with a server error. *)
Theorem post_orders_stores_verbatim (st : State) (order : Doc) :
  (order !! "_id" = None →
   post_orders order st
   = (Ok (json 201 "Order saved successfully"),
      {| lessons := lessons st;
         orders := orders st ++ [<["_id" := VOid (createPk (orders st))]> order];
         writes := S (writes st) |}))
  ∧ (∀ id, order !! "_id" = Some id → ¬ is_array id →
       ¬ Exists (has_id id) (orders st) →
       post_orders order st
       = (Ok (json 201 "Order saved successfully"),
          {| lessons := lessons st;
             orders := orders st ++ [order];
             writes := S (writes st) |}))
  ∧ (∀ e st', insertOne ordersCollection order st = (Throw e, st') →
       post_orders order st = (Ok (json 400 "Insert failed"), st))
  ∧ (∃ r st', post_orders order st = (Ok r, st') ∧
       (r = json 201 "Order saved successfully"
        ∨ r = json 400 "Insert failed" ∧ st' = st)).
Proof.
  split_and!.
  - intros Hnone. unfold post_orders. apply try_Ok.
    by erewrite bind_Ok by (by apply insertOne_fresh).
  - intros id Hid Harr Hnew. unfold post_orders. apply try_Ok.
    by erewrite bind_Ok by (by apply insertOne_with_id).
  - intros e st' Hthrow. pose proof (insertOne_Throw _ _ _ _ _ Hthrow) as ->.
    unfold post_orders. erewrite try_Throw; [done|]. by apply bind_Throw.
  - destruct (insertOne ordersCollection order st) as [[id|e] st'] eqn:Hins.
    + exists (json 201 "Order saved successfully"), st'. split; [|by left].
      unfold post_orders. apply try_Ok. by erewrite bind_Ok by done.
    + pose proof (insertOne_Throw _ _ _ _ _ Hins) as ->.
      exists (json 400 "Insert failed"), st. split; [|by right].
      unfold post_orders. erewrite try_Throw; [done|]. by apply bind_Throw.
Qed.

(** ** Searching lessons *)

Lemma parse_pattern_plain (q : string) :
  plain q = true → parse_pattern q = Atoms (literal q).
Proof.
  induction q as [|c q IH]; [done|]. simpl.
  intros [[Hc Hascii]%andb_prop Hq]%andb_prop. apply negb_true_iff in Hc.
  rewrite Hc, Hascii. simpl.
  rewrite !bool_decide_eq_false_2; [by rewrite IH|..];
    intros ->; discriminate Hc.
Qed.

Lemma lower_canonicalize (c : ascii) :
  lower_case (canonicalize c) = lower_case c.
Proof. by destruct c as [[] [] [] [] [] [] [] []]. Qed.

Lemma canonicalize_lower (c : ascii) :
  canonicalize (lower_case c) = canonicalize c.
Proof. by destruct c as [[] [] [] [] [] [] [] []]. Qed.

Lemma canonicalize_eq_iff (a b : ascii) :
  canonicalize a = canonicalize b ↔ lower_case a = lower_case b.
Proof.
  split; intros Heq.
  - by rewrite <-(lower_canonicalize a), Heq, lower_canonicalize.
  - by rewrite <-(canonicalize_lower a), Heq, canonicalize_lower.
Qed.

Lemma matches_here_literal (q s : string) :
  matches_here (literal q) s = true
  ↔ ∃ mid post, s = mid +:+ post ∧ lower mid = lower q.
Proof.
  revert s. induction q as [|c q IH]; intros s; simpl.
  - split; [|done]. intros _. by exists EmptyString, s.
  - destruct s as [|x s].
    + split; [done|]. by intros ([|??] & post & Hs & Hmid).
    + rewrite andb_true_iff, bool_decide_eq_true, IH, canonicalize_eq_iff.
      split.
      * intros (Hc & mid & post & -> & Hmid).
        exists (String x mid), post. simpl. by rewrite Hc, Hmid.
      * intros ([|y mid] & post & Hs & Hmid); [done|].
        simpl in Hs, Hmid. injection Hs as -> ->. injection Hmid as Hc Hmid.
        eauto.
Qed.

Lemma matches_somewhere_literal (q s : string) :
  matches_somewhere (literal q) s = true ↔ contains_ci q s.
Proof.
  unfold contains_ci. induction s as [|x s IH]; simpl.
  - rewrite orb_false_r, matches_here_literal. split.
    + intros (mid & post & Hs & Hmid). by exists EmptyString, mid, post.
    + intros ([|??] & mid & post & Hs & Hmid); simpl in Hs; [|done].
      by exists mid, post.
  - rewrite orb_true_iff, IH, (matches_here_literal q (String x s)). split.
    + intros [(mid & post & Hs & Hmid)|(pre & mid & post & -> & Hmid)].
      * by exists EmptyString, mid, post.
      * by exists (String x pre), mid, post.
    + intros ([|y pre] & mid & post & Hs & Hmid); simpl in Hs.
      * left. by exists mid, post.
      * right. injection Hs as -> ->. by exists pre, mid, post.
Qed.

Lemma regex_field_literal (q : string) (v : option Value) :
  regex_field (matches_somewhere (literal q)) v = true ↔ field_contains q v.
Proof.
  destruct v as [[| | |s| |l|]|]; simpl; try done.
  - apply matches_somewhere_literal.
  - rewrite existsb_exists. split.
    + intros (x & Hin%list_elem_of_In & Hx).
      destruct x; try done. apply matches_somewhere_literal in Hx. eauto.
    + intros (s & Hin%list_elem_of_In & Hs%matches_somewhere_literal).
      by exists (VStr s).
Qed.

Section search.
Context `{Platform}.

(** C6 (as amended). A search without a query is answered 400.  A search
    whose query is not empty and is made of ASCII characters other than
    the regular-expression syntax characters is answered 200 with the stored lessons, in storage order,
    for which at least one of topic, category, subject, location and
    level contains the query case-insensitively, and no others. *)
Theorem search_plain_query (st : State) (q : string) :
  q ≠ "" →
  plain q = true →
  get_lessons_search None st = (Ok (json 400 "Search query is required"), st)
  ∧ ∃ keep : Doc → bool,
      get_lessons_search (Some q) st
      = (Ok {| status := 200;
               body := Documents (filter (λ d, keep d = true) (lessons st)) |},
         st)
      ∧ ∀ d, keep d = true
             ↔ ∃ f, f ∈ search_fields ∧ field_contains q (d !! f).
Proof.
  intros Hne Hplain. split; [done|].
  eexists. split.
  - unfold get_lessons_search. destruct q as [|c q]; [done|].
    apply try_Ok. unfold new_RegExp_i.
    rewrite (parse_pattern_plain _ Hplain). reflexivity.
  - intros d. simpl. rewrite !orb_true_iff, !regex_field_literal.
    unfold search_fields. split.
    + intros [[[[?|?]|?]|?]|?]; eexists; (split; [|eassumption]); listed.
    + intros (f & Hf & Hc).
      repeat (apply elem_of_cons in Hf as [->|Hf]);
        [..|by apply elem_of_nil in Hf]; auto.
Qed.

End search.

(** ** The handlers on the sample store *)

(** The scenario of the specification: the lesson is inserted with space
    5, one decrement leaves it with space 4. *)
Example scenario_insert_then_decrement :
  ∃ (o : ObjectId) (stored : Doc) (st1 : State),
    post_lessons math_payload
      {| lessons := []; orders := []; writes := 0 |}
    = (Ok {| status := 201;
             body := MessageId "Lesson added successfully" (VOid o) |}, st1)
    ∧ lessons st1 = [stored]
    ∧ stored !! "space" = Some (VNum (num 5))
    ∧ ∀ P : Platform,
        @put_lesson_decrement P "000000000000000000000001" st1
        = (Ok (json 200 "Lesson space decremented successfully"),
           {| lessons := [<["space" := VNum (num 4)]> stored];
              orders := []; writes := 2 |}).
Proof.
  eexists _, _, _. split_and!; [reflexivity..|].
  intros P. vm_compute. reflexivity.
Qed.

(** A price of 0 is falsy: the payload is refused. *)
Example free_lesson_refused :
  post_lessons (<["price" := VNum (num 0)]> math_payload) (shop (num 5))
  = (Ok (json 400 "Missing required lesson fields"), shop (num 5)).
Proof. vm_compute. reflexivity. Qed.

(** An order whose [_id] is taken is refused by the store; the handler
    answers 400. *)
Example order_twice :
  ∃ st1,
    post_orders {[ "_id" := VStr "o1" ]} (shop (num 5))
    = (Ok (json 201 "Order saved successfully"), st1)
    ∧ post_orders {[ "_id" := VStr "o1" ]} st1
      = (Ok (json 400 "Insert failed"), st1).
Proof. eexists. split; vm_compute; reflexivity. Qed.

(** A query that ends in a backslash is no regular expression. *)
Example search_backslash :
  ∀ P : Platform,
    @get_lessons_search P (Some "math\") (shop (num 5))
    = (Ok (json 500 "Server error"), shop (num 5)).
Proof. intros P. vm_compute. reflexivity. Qed.

(** ** The properties on the sample store *)

Lemma capacity_invariant_witness :
  (∀ lessonId,
     lessons_natural (@put_lesson_decrement bare lessonId (shop (num 5))).2)
  ∧ (∀ req_body, space_natural req_body →
       lessons_natural (post_lessons req_body (shop (num 5))).2)
  ∧ (∀ lessonId updates, top_level_keys updates →
       updates !! "space" = None ∨ space_natural updates →
       lessons_natural (@put_lesson bare lessonId updates (shop (num 5))).2).
Proof.
  apply (@capacity_invariant bare (shop (num 5))).
  apply Forall_singleton. exists 5. split; [lia|reflexivity].
Defined.

(** C1, the claim as stated fails: a partial update that lists a negative
    space is applied, and the lesson is left with [space < 0]; and a
    decrement takes a space between 0 and 1 below zero. *)
Lemma space_can_go_negative :
  (lessons_natural (shop (num 5))
   ∧ (∀ P : Platform,
        @put_lesson P math_id {[ "space" := VNum (num (-1)) ]} (shop (num 5))
        = (Ok (json 200 "Lesson updated successfully"),
           {| lessons := [math (num (-1))]; orders := []; writes := 1 |}))
   ∧ ¬ space_nonneg (math (num (-1))))
  ∧ (space_nonneg (math (Q2Qc (1 # 2)))
     ∧ (∀ P : Platform,
          @put_lesson_decrement P math_id (shop (Q2Qc (1 # 2)))
          = (Ok (json 200 "Lesson space decremented successfully"),
             {| lessons := [math (Q2Qc (-1 # 2))]; orders := [];
                writes := 1 |}))
     ∧ ¬ space_nonneg (math (Q2Qc (-1 # 2)))).
Proof.
  split; split_and!.
  - by apply shop_natural.
  - intros P. vm_compute. reflexivity.
  - intros (q & Hq & Hle).
    assert (math (num (-1)) !! "space" = Some (VNum (num (-1)))) as Hspace
      by reflexivity.
    rewrite Hspace in Hq. injection Hq as <-.
    apply (proj1 (num_le 0 (-1))) in Hle. lia.
  - exists (Q2Qc (1 # 2)). split; [reflexivity|]. vm_compute. discriminate.
  - intros P. vm_compute. reflexivity.
  - intros (q & Hq & Hle).
    assert (math (Q2Qc (-1 # 2)) !! "space" = Some (VNum (Q2Qc (-1 # 2))))
      as Hspace by reflexivity.
    rewrite Hspace in Hq. injection Hq as <-.
    vm_compute in Hle. by apply Hle.
Qed.

Lemma decrement_success_witness :
  (∃ i, lessons (shop (num 5)) !! i = Some (math (num 5)) ∧
     @put_lesson_decrement bare math_id (shop (num 5))
     = (Ok (json 200 "Lesson space decremented successfully"),
        {| lessons := <[i := <["space" := VNum (num 4)]> (math (num 5))]>
                        (lessons (shop (num 5)));
           orders := orders (shop (num 5));
           writes := S (writes (shop (num 5))) |}))
  ∧ double_round (num 5 - 1) = num 4
  ∧ double_round (num 5 - 1) ≠ num 5.
Proof.
  destruct (@decrement_success bare (shop (num 5)) math_id math_oid
              (math (num 5)) (num 5)) as [(i & Hi & Hrun) Hint].
  - reflexivity.
  - apply NoDup_singleton.
  - apply list_elem_of_here.
  - reflexivity.
  - reflexivity.
  - reflexivity.
  - split; [exists i; split; [exact Hi|exact Hrun]|].
    apply (Hint 5); [reflexivity|lia].
Defined.

(** C2, the claim as stated fails: a lesson with space 10^16 is stored
    with [space > 0], yet a decrement on it writes nothing and is not
    answered 200: 10^16 - 1 is no double, the nearest one is 10^16, the
    store finds nothing to modify and the answer is 400 "Failed to update
    lesson space". *)
Lemma decrement_rounded_away :
  math (num (10 ^ 16)) ∈ lessons (shop (num (10 ^ 16)))
  ∧ math (num (10 ^ 16)) !! "space" = Some (VNum (num (10 ^ 16)))
  ∧ (0 < num (10 ^ 16))%Qc
  ∧ double_round (num (10 ^ 16) - 1) = num (10 ^ 16)
  ∧ ∀ P : Platform,
      @put_lesson_decrement P math_id (shop (num (10 ^ 16)))
      = (Ok (json 400 "Failed to update lesson space"),
         shop (num (10 ^ 16))).
Proof.
  split_and!.
  - apply list_elem_of_here.
  - reflexivity.
  - reflexivity.
  - vm_compute. reflexivity.
  - intros P. vm_compute. reflexivity.
Qed.

Lemma decrement_no_capacity_witness :
  @put_lesson_decrement bare math_id (shop (num 0))
  = (Ok (json 400 "No spaces left for this lesson"), shop (num 0)).
Proof.
  apply (@decrement_no_capacity bare (shop (num 0)) math_id math_oid
           (math (num 0)) (num 0)).
  - reflexivity.
  - apply NoDup_singleton.
  - apply list_elem_of_here.
  - reflexivity.
  - reflexivity.
  - vm_compute. discriminate.
Defined.

Lemma decrement_not_found_witness :
  @put_lesson_decrement bare "000000000000000000000001" (shop (num 5))
  = (Ok (json 404 "Lesson not found"), shop (num 5)).
Proof.
  apply (@decrement_not_found bare (shop (num 5))
           "000000000000000000000001" 1%N).
  - reflexivity.
  - intros d Hd%list_elem_of_singleton. subst d. vm_compute. discriminate.
Defined.

Lemma search_plain_query_witness :
  @get_lessons_search bare None (shop (num 5))
  = (Ok (json 400 "Search query is required"), shop (num 5))
  ∧ ∃ keep : Doc → bool,
      @get_lessons_search bare (Some "mAt") (shop (num 5))
      = (Ok {| status := 200;
               body := Documents (filter (λ d, keep d = true)
                                    (lessons (shop (num 5)))) |},
         shop (num 5))
      ∧ ∀ d, keep d = true
             ↔ ∃ f, f ∈ search_fields ∧ field_contains "mAt" (d !! f).
Proof.
  apply (@search_plain_query bare (shop (num 5)) "mAt").
  - discriminate.
  - reflexivity.
Defined.

(** C6, the claim as stated fails: the query [.] is a wildcard; it brings
    back a lesson none of whose fields contains a dot. *)
Lemma search_dot_is_a_wildcard :
  (∀ f, f ∈ search_fields → ¬ field_contains "." (math (num 5) !! f))
  ∧ ∀ P : Platform,
      @get_lessons_search P (Some ".") (shop (num 5))
      = (Ok {| status := 200; body := Documents [math (num 5)] |},
         shop (num 5)).
Proof.
  split.
  - intros f Hf Hc%regex_field_literal. unfold search_fields in Hf.
    repeat (apply elem_of_cons in Hf as [->|Hf]);
      [..|by apply elem_of_nil in Hf]; vm_compute in Hc; discriminate Hc.
  - intros P. vm_compute. reflexivity.
Qed.



Lemma malformed_id_server_error_witness :
  @put_lesson_decrement bare "lesson-1" (shop (num 5))
  = (Ok (json 500 "Server error"), shop (num 5))
  ∧ ∀ updates : Doc, updates ≠ ∅ →
      @put_lesson bare "lesson-1" updates (shop (num 5))
      = (Ok (json 500 "Server error"), shop (num 5)).
Proof.
  apply (@malformed_id_server_error bare (shop (num 5)) "lesson-1").
  intros [Hlen _]. vm_compute in Hlen. discriminate Hlen.
Defined.

(** C9, the claim as stated fails: with an empty mapping the partial
    update answers 400 before it looks at the id, also when the id is not
    a 24 character hex string. *)
Lemma put_lesson_empty_mapping_malformed_id :
  ¬ well_formed_id "lesson-1"
  ∧ ∀ (P : Platform) (st : State),
      @put_lesson P "lesson-1" ∅ st
      = (Ok (json 400 "No fields provided to update"), st).
Proof.
  split.
  - intros [Hlen _]. vm_compute in Hlen. discriminate Hlen.
  - intros P st. reflexivity.
Qed.

Lemma post_lessons_stores_ten_fields_witness :
  ∃ (o : ObjectId) (stored : Doc) (r : Response),
    post_lessons math_payload (shop (num 5))
    = (Ok r, {| lessons := lessons (shop (num 5)) ++ [stored];
                orders := orders (shop (num 5));
                writes := S (writes (shop (num 5))) |}) ∧
    (∀ k, stored !! k =
          if decide (k = "_id") then Some (VOid o)
          else if decide (k ∈ lesson_fields) then math_payload !! k
          else None).
Proof.
  apply (post_lessons_stores_ten_fields (shop (num 5)) math_payload).
  repeat constructor.
Defined.

(** * Part III: further properties of the handlers *)

(** ** More on the decrement *)

Lemma dec_keeps_fields (d d' : Doc) (k : string) :
  apply_update (UInc "space" (num (-1))) d = Ok d' →
  k ≠ "space" → d' !! k = d !! k.
Proof.
  simpl. intros Hupd Hk.
  destruct (d !! "space") as [[]|]; try discriminate Hupd;
    injection Hupd as <-; by rewrite lookup_insert_ne.
Qed.

Section decrement_cases.
Context `{Platform}.

Lemma decrement_malformed (st : State) (lessonId : string) :
  ObjectId_of_string lessonId = None →
  put_lesson_decrement lessonId st = (Ok server_error, st).
Proof.
  intros Hbad. unfold put_lesson_decrement.
  erewrite try_Throw; [done|]. by apply bind_Throw, new_ObjectId_Throw.
Qed.

Lemma decrement_absent (st : State) (lessonId : string) (o : ObjectId) :
  ObjectId_of_string lessonId = Some o →
  list_find (has_id (VOid o)) (lessons st) = None →
  put_lesson_decrement lessonId st = (Ok (json 404 "Lesson not found"), st).
Proof.
  intros Hid Hfind. unfold put_lesson_decrement. apply try_Ok.
  erewrite bind_Ok by (by apply new_ObjectId_Ok).
  unfold mbind at 1, M_bind, findOne. simpl. by rewrite Hfind.
Qed.

(** What the decrement does with the lesson it finds. *)
Lemma decrement_found (st : State) (lessonId : string) (o : ObjectId)
    (i : nat) (d : Doc) :
  ObjectId_of_string lessonId = Some o →
  list_find (has_id (VOid o)) (lessons st) = Some (i, d) →
  put_lesson_decrement lessonId st
  = if js_le_zero (d !! "space") then (Ok no_capacity, st)
    else match apply_update (UInc "space" (num (-1))) d with
         | Ok d' =>
             if decide (d' = d)
             then (Ok (json 400 "Failed to update lesson space"), st)
             else (Ok decremented,
                   {| lessons := <[i := d']> (lessons st);
                      orders := orders st;
                      writes := S (writes st) |})
         | Throw _ => (Ok server_error, st)
         end.
Proof.
  intros Hid Hfind. unfold put_lesson_decrement, try_catch.
  erewrite bind_Ok by (by apply new_ObjectId_Ok).
  unfold mbind at 1, M_bind, findOne. cbn -[apply_update].
  rewrite Hfind. cbn -[apply_update].
  destruct (js_le_zero (d !! "space")); [done|].
  erewrite bind_Ok by (by apply new_ObjectId_Ok).
  unfold mbind, M_bind, updateOne. cbn -[apply_update]. rewrite Hfind.
  destruct (apply_update (UInc "space" (num (-1))) d) as [d'|e] eqn:Hupd;
    [|done].
  by destruct (decide (d' = d)).
Qed.

End decrement_cases.

Section decrement_effects.
Context `{Platform}.

(** X1. Whatever the id and the store, the decrement changes the store
    only when it answers 200 "Lesson space decremented successfully", and
    then it has written once: one lesson differs, in its space field
    only.  With every other answer the store is the one before. *)
Theorem decrement_writes_only_on_success (st : State) (lessonId : string) :
  ∃ r st',
    put_lesson_decrement lessonId st = (Ok r, st') ∧
    ((r = decremented ∧
      ∃ i d d',
        lessons st !! i = Some d ∧
        lessons st' = <[i := d']> (lessons st) ∧
        d' ≠ d ∧
        (∀ k, k ≠ "space" → d' !! k = d !! k) ∧
        orders st' = orders st ∧
        writes st' = S (writes st))
     ∨ (r ≠ decremented ∧ st' = st)).
Proof.
  destruct (ObjectId_of_string lessonId) as [o|] eqn:Hid; cycle 1.
  { eexists _, _. split; [by apply decrement_malformed|]. by right. }
  destruct (list_find (has_id (VOid o)) (lessons st)) as [[i d]|] eqn:Hfind;
    cycle 1.
  { eexists _, _. split; [by eapply decrement_absent|]. by right. }
  rewrite (decrement_found st lessonId o i d Hid Hfind).
  destruct (js_le_zero (d !! "space")).
  { eexists _, _. split; [done|]. by right. }
  destruct (apply_update (UInc "space" (num (-1))) d) as [d'|e] eqn:Hupd.
  - destruct (decide (d' = d)) as [Heq|Hne].
    { eexists _, _. split; [done|]. by right. }
    eexists _, _. split; [done|]. left. split; [done|].
    exists i, d, d'. apply list_find_Some in Hfind as (Hi & _ & _).
    split_and!; [done..| |done|done].
    intros k Hk. by eapply dec_keeps_fields.
  - eexists _, _. split; [done|]. by right.
Qed.

(** X2. A stored lesson whose space is not a number: without a space
    field the decrement answers 200 and stores space = -1; with space
    null or false it answers 400 "No spaces left for this lesson"; with
    space true it answers 500; and with any other value that is not a
    number (a string, a list, an object) it answers 400 or 500.  Only in
    the first case is anything written. *)
Theorem decrement_space_not_a_number (st : State) (lessonId : string)
    (o : ObjectId) (d : Doc) :
  ObjectId_of_string lessonId = Some o →
  unique_ids (lessons st) →
  d ∈ lessons st →
  has_id (VOid o) d →
  (d !! "space" = None →
   ∃ i, lessons st !! i = Some d ∧
     put_lesson_decrement lessonId st
     = (Ok decremented,
        {| lessons := <[i := <["space" := VNum (num (-1))]> d]> (lessons st);
           orders := orders st;
           writes := S (writes st) |}))
  ∧ (d !! "space" = Some VNull ∨ d !! "space" = Some (VBool false) →
     put_lesson_decrement lessonId st = (Ok no_capacity, st))
  ∧ (d !! "space" = Some (VBool true) →
     put_lesson_decrement lessonId st = (Ok server_error, st))
  ∧ (∀ v, d !! "space" = Some v → (∀ q, v ≠ VNum q) →
     put_lesson_decrement lessonId st = (Ok no_capacity, st)
     ∨ put_lesson_decrement lessonId st = (Ok server_error, st)).
Proof.
  intros Hid Huniq Hin Hd.
  destruct (list_find_present _ _ _ Huniq Hin Hd) as (i & Hi & Hfind).
  rewrite (decrement_found st lessonId o i d Hid Hfind).
  split_and!.
  - intros Hnone. exists i. split; [done|]. simpl. rewrite Hnone.
    rewrite decide_False; [done|]. intros Heq.
    apply (f_equal (λ m : Doc, m !! "space")) in Heq.
    by rewrite lookup_insert_eq, Hnone in Heq.
  - simpl. by intros [->| ->].
  - simpl. by intros ->.
  - intros v Hv Hnum. simpl. rewrite Hv.
    destruct (js_le_zero (Some v)); [by left|right].
    destruct v; try done. by destruct (Hnum q).
Qed.

End decrement_effects.

Lemma decrement_space_not_a_number_witness :
  (math_without_space !! "space" = None →
   ∃ i, lessons shop_without_space !! i = Some math_without_space ∧
     @put_lesson_decrement bare math_id shop_without_space
     = (Ok decremented,
        {| lessons := <[i := <["space" := VNum (num (-1))]> math_without_space]>
                        (lessons shop_without_space);
           orders := orders shop_without_space;
           writes := S (writes shop_without_space) |}))
  ∧ (math_without_space !! "space" = Some VNull
     ∨ math_without_space !! "space" = Some (VBool false) →
     @put_lesson_decrement bare math_id shop_without_space
     = (Ok no_capacity, shop_without_space))
  ∧ (math_without_space !! "space" = Some (VBool true) →
     @put_lesson_decrement bare math_id shop_without_space
     = (Ok server_error, shop_without_space))
  ∧ (∀ v, math_without_space !! "space" = Some v → (∀ q, v ≠ VNum q) →
     @put_lesson_decrement bare math_id shop_without_space
     = (Ok no_capacity, shop_without_space)
     ∨ @put_lesson_decrement bare math_id shop_without_space
       = (Ok server_error, shop_without_space)).
Proof.
  apply (@decrement_space_not_a_number bare shop_without_space
           math_id math_oid math_without_space).
  - reflexivity.
  - apply NoDup_singleton.
  - apply list_elem_of_here.
  - reflexivity.
Defined.

(** ** Unique ids *)

Lemma unique_ids_insert (ds : list Doc) (i : nat) (d d' : Doc) :
  ds !! i = Some d →
  d' !! "_id" = d !! "_id" →
  unique_ids ds → unique_ids (<[i := d']> ds).
Proof.
  unfold unique_ids. intros Hi Hid Hnd.
  rewrite list_fmap_insert, list_insert_id; [done|].
  by rewrite list_lookup_fmap, Hi, Hid.
Qed.

Lemma unique_ids_snoc (ds : list Doc) (doc : Doc) (id : Value) :
  doc !! "_id" = Some id →
  ¬ Exists (has_id id) ds →
  unique_ids ds → unique_ids (ds ++ [doc]).
Proof.
  unfold unique_ids. intros Hid Hnew Hnd.
  rewrite fmap_app. apply NoDup_app. split_and!; [done| |apply NoDup_singleton].
  intros x Hx Hx'. simpl in Hx'. apply list_elem_of_singleton in Hx' as ->.
  apply list_elem_of_fmap in Hx as (d & Hd & Hin).
  apply Hnew, Exists_exists. exists d. split; [done|].
  unfold has_id. by rewrite <-Hid, Hd.
Qed.

Lemma insertOne_unique (c : Collection) (doc : Doc) (st : State) :
  unique_ids (documents c st) →
  unique_ids (documents c (insertOne c doc st).2).
Proof.
  intros Huniq. unfold insertOne.
  destruct (decide (is_array _)); [done|].
  destruct (decide (Exists _ _)) as [|Hnew]; [done|].
  assert (∀ ds, documents c (commit c ds st) = ds) as Hc by (by destruct c).
  simpl. rewrite Hc.
  eapply unique_ids_snoc; [apply lookup_insert_eq|exact Hnew|done].
Qed.

Lemma insertOne_other (c c' : Collection) (doc : Doc) (st : State) :
  c ≠ c' → documents c' (insertOne c doc st).2 = documents c' st.
Proof.
  intros Hne. unfold insertOne.
  destruct (decide (is_array _)); [done|].
  destruct (decide (Exists _ _)); [done|].
  by destruct c, c'.
Qed.

Lemma set_keeps_id (updates d d' : Doc) :
  apply_update (USet updates) d = Ok d' → d' !! "_id" = d !! "_id".
Proof.
  simpl. destruct (updates !! "_id") as [id|] eqn:Hid.
  - destruct (decide (has_id id d)) as [Hd|]; [|done].
    intros [= <-]. rewrite (lookup_union_Some_l _ _ _ _ Hid). by rewrite Hd.
  - intros [= <-]. by apply lookup_union_r.
Qed.

Section stores.
Context `{Platform}.

Lemma decrement_state (st : State) (lessonId : string) :
  (put_lesson_decrement lessonId st).2 = st
  ∨ ∃ i d d',
      lessons st !! i = Some d ∧
      apply_update (UInc "space" (num (-1))) d = Ok d' ∧
      (put_lesson_decrement lessonId st).2
      = {| lessons := <[i := d']> (lessons st);
           orders := orders st;
           writes := S (writes st) |}.
Proof.
  destruct (ObjectId_of_string lessonId) as [o|] eqn:Hid; cycle 1.
  { left. by rewrite decrement_malformed. }
  destruct (list_find (has_id (VOid o)) (lessons st)) as [[i d]|] eqn:Hfind;
    cycle 1.
  { left. by erewrite decrement_absent. }
  rewrite (decrement_found st lessonId o i d Hid Hfind).
  destruct (js_le_zero (d !! "space")); [by left|].
  destruct (apply_update (UInc "space" (num (-1))) d) as [d'|e] eqn:Hupd;
    [|by left].
  destruct (decide (d' = d)); [by left|right].
  exists i, d, d'. by apply list_find_Some in Hfind as (Hi & _ & _).
Qed.

Lemma post_orders_state (order : Doc) (st : State) :
  (post_orders order st).2 = (insertOne ordersCollection order st).2.
Proof.
  unfold post_orders, try_catch, mbind, M_bind.
  by destruct (insertOne ordersCollection order st) as [[id|e] st'].
Qed.

Lemma post_lessons_state (req_body : Doc) (st : State) :
  (post_lessons req_body st).2 = st
  ∨ ∃ doc, (post_lessons req_body st).2
           = (insertOne lessonsCollection doc st).2.
Proof.
  unfold post_lessons, try_catch.
  match goal with |- context [if ?b then _ else _] => destruct b end;
    [by left|right].
  unfold mbind, M_bind.
  match goal with |- context [insertOne lessonsCollection ?doc st] =>
    exists doc; by destruct (insertOne lessonsCollection doc st) as [[id|e] st']
  end.
Qed.

Lemma put_lesson_state (lessonId : string) (updates : Doc) (st : State) :
  (put_lesson lessonId updates st).2 = st
  ∨ ∃ o, ObjectId_of_string lessonId = Some o ∧
         (put_lesson lessonId updates st).2
         = (updateOne lessonsCollection o (USet updates) st).2.
Proof.
  unfold put_lesson, try_catch. case_bool_decide; [by left|].
  unfold mbind at 1, M_bind, new_ObjectId.
  destruct (ObjectId_of_string lessonId) as [o|]; [right|by left].
  exists o. split; [done|]. unfold mbind, M_bind. cbn -[updateOne].
  destruct (updateOne lessonsCollection o (USet updates) st)
    as [[r|e] st']; [|done].
  cbn. by case_bool_decide.
Qed.

(** X3. The two collections are separate: no request on lessons (create,
    partial update, decrement) changes an order, whatever it is given,
    and saving an order changes no lesson. *)
Theorem collections_are_separate (st : State) :
  (∀ req_body, orders (post_lessons req_body st).2 = orders st)
  ∧ (∀ lessonId updates, orders (put_lesson lessonId updates st).2 = orders st)
  ∧ (∀ lessonId, orders (put_lesson_decrement lessonId st).2 = orders st)
  ∧ (∀ order, lessons (post_orders order st).2 = lessons st).
Proof.
  split_and!.
  - intros req_body.
    destruct (post_lessons_state req_body st) as [->|[doc ->]]; [done|].
    by apply (insertOne_other lessonsCollection ordersCollection).
  - intros lessonId updates.
    destruct (put_lesson_state lessonId updates st) as [->|(o & _ & ->)];
      [done|].
    apply updateOne_orders.
  - intros lessonId.
    by destruct (decrement_state st lessonId)
      as [->|(i & d & d' & _ & _ & ->)].
  - intros order. rewrite post_orders_state.
    by apply (insertOne_other ordersCollection lessonsCollection).
Qed.

End stores.

Section ids.
Context `{Platform}.

Lemma updateOne_set_unique (o : ObjectId) (updates : Doc) (st : State) :
  top_level_keys updates →
  unique_ids (lessons st) →
  unique_ids (lessons (updateOne lessonsCollection o (USet updates) st).2).
Proof.
  intros Htop Huniq. unfold updateOne. cbn -[apply_update].
  rewrite decide_True by done.
  destruct (list_find (has_id (VOid o)) (lessons st)) as [[i d]|] eqn:Hfind;
    [|done].
  apply list_find_Some in Hfind as (Hi & _ & _).
  destruct (apply_update (USet updates) d) as [d'|e] eqn:Hupd; [|done].
  destruct (decide (d' = d)); [done|]. simpl.
  eapply unique_ids_insert; [done| |done]. by eapply set_keeps_id.
Qed.

(** X4. Ids stay unique.  On a store in which no two lessons and no two
    orders share an [_id], every request leaves it so: creating a lesson,
    the decrement, the partial update (with top-level field names) and
    saving an order, whatever they are given. *)
Theorem unique_ids_preserved (st : State) :
  unique_ids (lessons st) →
  unique_ids (orders st) →
  (∀ req_body, unique_ids (lessons (post_lessons req_body st).2))
  ∧ (∀ lessonId, unique_ids (lessons (put_lesson_decrement lessonId st).2))
  ∧ (∀ lessonId updates, top_level_keys updates →
       unique_ids (lessons (put_lesson lessonId updates st).2))
  ∧ (∀ order, unique_ids (orders (post_orders order st).2)).
Proof.
  intros Hlessons Horders. split_and!.
  - intros req_body.
    destruct (post_lessons_state req_body st) as [->|[doc ->]]; [done|].
    by apply (insertOne_unique lessonsCollection).
  - intros lessonId.
    destruct (decrement_state st lessonId)
      as [->|(i & d & d' & Hi & Hupd & ->)]; [done|].
    simpl. eapply unique_ids_insert; [done| |done].
    by eapply dec_keeps_fields.
  - intros lessonId updates Htop.
    destruct (put_lesson_state lessonId updates st) as [->|(o & _ & ->)];
      [done|].
    by apply updateOne_set_unique.
  - intros order. rewrite post_orders_state.
    by apply (insertOne_unique ordersCollection).
Qed.

End ids.

Lemma unique_ids_preserved_witness :
  (∀ req_body, unique_ids (lessons (post_lessons req_body (shop (num 5))).2))
  ∧ (∀ lessonId,
       unique_ids (lessons (@put_lesson_decrement bare lessonId (shop (num 5))).2))
  ∧ (∀ lessonId updates, top_level_keys updates →
       unique_ids (lessons (@put_lesson bare lessonId updates (shop (num 5))).2))
  ∧ (∀ order, unique_ids (orders (post_orders order (shop (num 5))).2)).
Proof.
  apply (@unique_ids_preserved bare (shop (num 5))).
  - apply NoDup_singleton.
  - apply NoDup_nil_2.
Defined.

(** ** Requests that follow one another *)

Lemma list_find_at (id : Value) (ds : list Doc) (i : nat) (d : Doc) :
  unique_ids ds → ds !! i = Some d → has_id id d →
  list_find (has_id id) ds = Some (i, d).
Proof.
  intros Huniq Hi Hd.
  destruct (list_find_present id ds d Huniq) as (j & Hj & Hfind);
    [by eapply list_elem_of_lookup_2|done|].
  assert (i = j) as ->; [|done].
  eapply (NoDup_lookup _ _ _ _ Huniq);
    by rewrite list_lookup_fmap; erewrite ?Hi, ?Hj.
Qed.

Lemma num_pos (n : Z) : 0 < n → (0 < num n)%Qc.
Proof.
  intros Hn. apply Qclt_nge. change 0%Qc with (num 0).
  rewrite num_le. lia.
Qed.

Section sequences.
Context `{Platform}.

(** The decrement on a stored lesson that holds a number above 0. *)
Lemma decrement_rounded (st : State) (lessonId : string) (o : ObjectId)
    (i : nat) (d : Doc) (N : Qc) :
  ObjectId_of_string lessonId = Some o →
  unique_ids (lessons st) →
  lessons st !! i = Some d →
  has_id (VOid o) d →
  d !! "space" = Some (VNum N) →
  (0 < N)%Qc →
  put_lesson_decrement lessonId st
  = if decide (double_round (N - 1) = N)
    then (Ok (json 400 "Failed to update lesson space"), st)
    else (Ok decremented,
          {| lessons :=
               <[i := <["space" := VNum (double_round (N - 1))]> d]> (lessons st);
             orders := orders st;
             writes := S (writes st) |}).
Proof.
  intros Hid Huniq Hi Hd Hspace Hpos.
  apply (decrement_positive_space st lessonId o); [done| |done..].
  by apply list_find_at.
Qed.

(** The decrement on a stored lesson with a positive number of spaces,
    up to 2^53. *)
Lemma decrement_positive (st : State) (lessonId : string) (o : ObjectId)
    (i : nat) (d : Doc) (n : Z) :
  ObjectId_of_string lessonId = Some o →
  unique_ids (lessons st) →
  lessons st !! i = Some d →
  has_id (VOid o) d →
  d !! "space" = Some (VNum (num n)) →
  0 < n ≤ 2 ^ 53 →
  put_lesson_decrement lessonId st
  = (Ok decremented,
     {| lessons := <[i := <["space" := VNum (num (n - 1))]> d]> (lessons st);
        orders := orders st;
        writes := S (writes st) |}).
Proof.
  intros Hid Huniq Hi Hd Hspace Hn.
  rewrite (decrement_rounded st lessonId o i d (num n))
    by (done || apply num_pos; lia).
  destruct (double_round_pred n Hn) as [Hround Hne].
  by rewrite decide_False, Hround.
Qed.

(** The decrement on a stored lesson with no space left. *)
Lemma decrement_exhausted (st : State) (lessonId : string) (o : ObjectId)
    (i : nat) (d : Doc) (N : Qc) :
  ObjectId_of_string lessonId = Some o →
  unique_ids (lessons st) →
  lessons st !! i = Some d →
  has_id (VOid o) d →
  d !! "space" = Some (VNum N) →
  (N ≤ 0)%Qc →
  put_lesson_decrement lessonId st = (Ok no_capacity, st).
Proof.
  intros Hid Huniq Hi Hd Hspace Hle.
  rewrite (decrement_found st lessonId o i d Hid) by (by apply list_find_at).
  by rewrite Hspace, js_le_zero_num, bool_decide_eq_true_2.
Qed.

(** X5. A lesson with [n] spaces can be booked exactly [n] times ([n] at
    most 2^53, the range in which the stored numbers are exact): of
    [n + 1] decrements on it, served one after another, the first [n]
    answer 200 and the last answers 400 "No spaces left for this lesson";
    the lesson ends with space 0 after [n] writes, all else unchanged. *)
Theorem decrement_exactly_space_times (st : State) (lessonId : string)
    (o : ObjectId) (i : nat) (d : Doc) (n : nat) :
  ObjectId_of_string lessonId = Some o →
  unique_ids (lessons st) →
  lessons st !! i = Some d →
  has_id (VOid o) d →
  d !! "space" = Some (VNum (num (Z.of_nat n))) →
  Z.of_nat n ≤ 2 ^ 53 →
  repeat_request (put_lesson_decrement lessonId) (S n) st
  = (replicate n (Ok decremented) ++ [Ok no_capacity],
     {| lessons := <[i := <["space" := VNum (num 0)]> d]> (lessons st);
        orders := orders st;
        writes := (writes st + n)%nat |}).
Proof.
  intros Hid. revert st d. induction n as [|n IH];
    intros st d Huniq Hi Hd Hspace Hexact.
  - simpl. erewrite decrement_exhausted by (done || by apply (num_le 0 0)).
    simpl. rewrite insert_id, list_insert_id, Nat.add_0_r by done.
    by destruct st.
  - change (repeat_request ?h (S (S n)) st)
      with (let '(r, st1) := h st in
            let '(rs, st2) := repeat_request h (S n) st1 in (r :: rs, st2)).
    erewrite decrement_positive by (done || lia).
    replace (Z.of_nat (S n) - 1) with (Z.of_nat n) by lia.
    erewrite IH; cycle 1.
    + eapply unique_ids_insert; [done| |done]. by rewrite lookup_insert_ne.
    + simpl. apply list_lookup_insert_eq. by eapply lookup_lt_Some.
    + unfold has_id. by rewrite lookup_insert_ne.
    + by rewrite lookup_insert_eq.
    + lia.
    + simpl. rewrite list_insert_insert_eq, insert_insert_eq.
      do 3 f_equal. lia.
Qed.

End sequences.

Lemma decrement_exactly_space_times_witness :
  repeat_request (@put_lesson_decrement bare math_id) 3 (shop (num 2))
  = (replicate 2 (Ok decremented) ++ [Ok no_capacity],
     {| lessons := <[0%nat := <["space" := VNum (num 0)]> (math (num 2))]>
                     (lessons (shop (num 2)));
        orders := orders (shop (num 2));
        writes := (writes (shop (num 2)) + 2)%nat |}).
Proof.
  apply (@decrement_exactly_space_times bare (shop (num 2)) math_id math_oid
           0%nat (math (num 2)) 2%nat).
  - reflexivity.
  - apply NoDup_singleton.
  - reflexivity.
  - reflexivity.
  - reflexivity.
  - vm_compute. discriminate.
Defined.

Section create_then.
Context `{Platform}.

(** X6. A lesson that was just created is found under the id the
    creation returned.  For a payload with the ten fields truthy and a
    number [N] as space, a decrement on that id: when [N] is an integer
    from 1 to 2^53, answers 200 and leaves the new lesson with space
    [N - 1]; for any [N > 0], answers 200 and leaves the double nearest
    to [N - 1], unless that is [N] itself, in which case it answers 400
    "Failed to update lesson space" and writes nothing; when [N < 0],
    answers 400 "No spaces left for this lesson".  The older lessons are
    not touched. *)
Theorem create_then_decrement (st : State) (req_body : Doc) (N : Qc) :
  unique_ids (lessons st) →
  all_truthy req_body →
  req_body !! "space" = Some (VNum N) →
  ∃ (o : ObjectId) (stored : Doc) (st1 : State),
    post_lessons req_body st
    = (Ok {| status := 201;
             body := MessageId "Lesson added successfully" (VOid o) |}, st1)
    ∧ lessons st1 = lessons st ++ [stored]
    ∧ ∀ lessonId, ObjectId_of_string lessonId = Some o →
        (∀ n : Z, N = num n → 0 < n ≤ 2 ^ 53 →
         put_lesson_decrement lessonId st1
         = (Ok decremented,
            {| lessons := lessons st ++ [<["space" := VNum (num (n - 1))]> stored];
               orders := orders st;
               writes := S (S (writes st)) |}))
        ∧ ((0 < N)%Qc →
           put_lesson_decrement lessonId st1
           = if decide (double_round (N - 1) = N)
             then (Ok (json 400 "Failed to update lesson space"), st1)
             else (Ok decremented,
                   {| lessons :=
                        lessons st
                        ++ [<["space" := VNum (double_round (N - 1))]> stored];
                      orders := orders st;
                      writes := S (S (writes st)) |}))
        ∧ ((N < 0)%Qc →
           put_lesson_decrement lessonId st1 = (Ok no_capacity, st1)).
Proof.
  intros Huniq Hall Hspace.
  destruct (post_lessons_accepts st req_body Hall)
    as (stored & Hrun & Hid & Hfields & _).
  eexists _, stored, _. split; [exact Hrun|]. split; [done|].
  intros lessonId Hparse.
  assert (unique_ids (lessons st ++ [stored])) as Huniq1.
  { eapply unique_ids_snoc; [exact Hid|apply createPk_fresh|done]. }
  assert ((lessons st ++ [stored]) !! length (lessons st) = Some stored)
    as Hlookup by apply list_lookup_middle, eq_refl.
  assert (stored !! "space" = Some (VNum N)) as Hstored
    by (by rewrite Hfields by listed).
  assert (∀ d' : Doc,
            <[length (lessons st) := d']> (lessons st ++ [stored])
            = lessons st ++ [d']) as Hlast.
  { intros d'. rewrite <-(Nat.add_0_r (length (lessons st))) at 1.
    by rewrite insert_app_r. }
  split_and!.
  - intros n -> Hn. erewrite decrement_positive by done. simpl.
    by rewrite Hlast.
  - intros HN. erewrite decrement_rounded by done. simpl.
    by rewrite Hlast.
  - intros HN. eapply decrement_exhausted; [done..|]. by apply Qclt_le_weak.
Qed.

End create_then.

(** X7. A lesson that was created is listed: after a payload with the
    ten fields truthy is accepted, [GET /api/lessons] answers 200 with
    the lessons stored before, in their order, followed by one record
    that carries the returned id, which no older lesson has, and the ten
    values of the payload. *)
Theorem create_then_list (st : State) (req_body : Doc) :
  all_truthy req_body →
  ∃ (o : ObjectId) (stored : Doc) (st1 : State),
    post_lessons req_body st
    = (Ok {| status := 201;
             body := MessageId "Lesson added successfully" (VOid o) |}, st1)
    ∧ get_lessons st1
      = (Ok {| status := 200; body := Documents (lessons st ++ [stored]) |},
         st1)
    ∧ has_id (VOid o) stored
    ∧ (∀ f, f ∈ lesson_fields → stored !! f = req_body !! f)
    ∧ (∀ d, d ∈ lessons st → ¬ has_id (VOid o) d).
Proof.
  intros Hall.
  destruct (post_lessons_accepts st req_body Hall)
    as (stored & Hrun & Hid & Hfields & _).
  eexists _, stored, _. split; [exact Hrun|]. split_and!; [done..|].
  intros d Hd Hhas. apply (createPk_fresh (lessons st)), Exists_exists. eauto.
Qed.

Lemma create_then_list_witness :
  ∃ (o : ObjectId) (stored : Doc) (st1 : State),
    post_lessons math_payload (shop (num 5))
    = (Ok {| status := 201;
             body := MessageId "Lesson added successfully" (VOid o) |}, st1)
    ∧ get_lessons st1
      = (Ok {| status := 200;
               body := Documents (lessons (shop (num 5)) ++ [stored]) |},
         st1)
    ∧ has_id (VOid o) stored
    ∧ (∀ f, f ∈ lesson_fields → stored !! f = math_payload !! f)
    ∧ (∀ d, d ∈ lessons (shop (num 5)) → ¬ has_id (VOid o) d).
Proof.
  apply (create_then_list (shop (num 5)) math_payload).
  repeat constructor.
Defined.

Lemma create_then_decrement_witness :
  ∃ (o : ObjectId) (stored : Doc) (st1 : State),
    post_lessons math_payload (shop (num 5))
    = (Ok {| status := 201;
             body := MessageId "Lesson added successfully" (VOid o) |}, st1)
    ∧ lessons st1 = lessons (shop (num 5)) ++ [stored]
    ∧ ∀ lessonId, ObjectId_of_string lessonId = Some o →
        @put_lesson_decrement bare lessonId st1
        = (Ok decremented,
           {| lessons := lessons (shop (num 5))
                         ++ [<["space" := VNum (num 4)]> stored];
              orders := orders (shop (num 5));
              writes := S (S (writes (shop (num 5)))) |}).
Proof.
  destruct (@create_then_decrement bare (shop (num 5)) math_payload (num 5))
    as (o & stored & st1 & Hrun & Hlessons & Hdec).
  - apply NoDup_singleton.
  - repeat constructor.
  - reflexivity.
  - exists o, stored, st1. split; [exact Hrun|]. split; [exact Hlessons|].
    intros lessonId Hparse.
    destruct (Hdec lessonId Hparse) as (Hint & _ & _).
    apply (Hint 5); [reflexivity|lia].
Defined.

(** ** The partial update, twice *)

Section update_twice.
Context `{Platform}.

Lemma updateOne_set_noop (st : State) (o : ObjectId) (i : nat)
    (d updates : Doc) :
  list_find (has_id (VOid o)) (lessons st) = Some (i, d) →
  top_level_keys updates →
  updates !! "_id" = None →
  updates ∪ d = d →
  updateOne lessonsCollection o (USet updates) st
  = (Ok {| matchedCount := 1; modifiedCount := 0 |}, st).
Proof.
  intros Hfind Htop Hid Heq. unfold updateOne. simpl.
  rewrite decide_True by done. rewrite Hfind. simpl. rewrite Hid.
  by rewrite decide_True.
Qed.

(** X8. The partial update is idempotent: sent a second time with the
    same id and the same mapping (top-level field names other than
    [_id]) to a stored lesson, it answers 200 again and writes nothing;
    the store stays the one the first update left. *)
Theorem put_lesson_twice (st : State) (lessonId : string) (o : ObjectId)
    (updates d : Doc) :
  ObjectId_of_string lessonId = Some o →
  updates ≠ ∅ →
  top_level_keys updates →
  updates !! "_id" = None →
  unique_ids (lessons st) →
  d ∈ lessons st →
  has_id (VOid o) d →
  ∃ st1,
    put_lesson lessonId updates st
    = (Ok (json 200 "Lesson updated successfully"), st1)
    ∧ put_lesson lessonId updates st1
      = (Ok (json 200 "Lesson updated successfully"), st1).
Proof.
  intros Hid Hne Htop Hnoid Huniq Hin Hd.
  destruct (list_find_present _ _ _ Huniq Hin Hd) as (i & Hi & Hfind).
  destruct (updateOne_set st o i d updates Hfind Htop Hnoid)
    as (modified & st1 & Hupd & Hl & _).
  exists st1. split.
  - rewrite put_lesson_nonempty by done. apply try_Ok.
    erewrite bind_Ok by (by apply new_ObjectId_Ok).
    by erewrite bind_Ok by exact Hupd.
  - rewrite put_lesson_nonempty by done. apply try_Ok.
    erewrite bind_Ok by (by apply new_ObjectId_Ok).
    erewrite bind_Ok; cycle 1.
    { apply (updateOne_set_noop st1 o i (updates ∪ d)); [|done|done|].
      - rewrite Hl. apply list_find_at.
        + eapply unique_ids_insert; [done| |done]. by apply lookup_union_r.
        + apply list_lookup_insert_eq. by eapply lookup_lt_Some.
        + unfold has_id. by rewrite lookup_union_r.
      - by rewrite (assoc_L (∪)), (idemp_L (∪)). }
    done.
Qed.

End update_twice.

Lemma put_lesson_twice_witness :
  ∃ st1,
    @put_lesson bare math_id {[ "topic" := VStr "X" ]} (shop (num 5))
    = (Ok (json 200 "Lesson updated successfully"), st1)
    ∧ @put_lesson bare math_id {[ "topic" := VStr "X" ]} st1
      = (Ok (json 200 "Lesson updated successfully"), st1).
Proof.
  apply (@put_lesson_twice bare (shop (num 5)) math_id math_oid
           {[ "topic" := VStr "X" ]} (math (num 5))).
  - reflexivity.
  - apply map_non_empty_singleton.
  - apply map_Forall_singleton. reflexivity.
  - reflexivity.
  - apply NoDup_singleton.
  - apply list_elem_of_here.
  - reflexivity.
Defined.

(** ** More on the search *)

Lemma escape_nonempty (q : string) : q ≠ "" → escape q ≠ "".
Proof.
  destruct q as [|c q]; [done|]. intros _. simpl.
  by destruct (syntax_character c).
Qed.

Lemma printable_ascii (c : ascii) :
  printable c = true → ascii_character c = true.
Proof.
  unfold printable, ascii_character.
  rewrite !bool_decide_eq_true. lia.
Qed.

Lemma parse_pattern_escape (q : string) :
  printable_string q = true → parse_pattern (escape q) = Atoms (literal q).
Proof.
  induction q as [|c q IH]; [done|]. simpl.
  intros [Hascii%printable_ascii Hq]%andb_prop.
  destruct (syntax_character c) eqn:Hc.
  - change (parse_pattern (String "\" (String c (escape q))))
      with (if syntax_character c
            then then_ (Lit c) (parse_pattern (escape q)) else Beyond).
    by rewrite Hc, IH.
  - simpl. rewrite Hc, Hascii. simpl.
    rewrite !bool_decide_eq_false_2; [by rewrite IH|..];
      intros ->; discriminate Hc.
Qed.

Section search_more.
Context `{Platform}.

(** X9. The search never writes, and it answers 400 exactly when the
    query is missing or empty.  With any other query, whatever pattern it
    is, the answer is 500 or 200, and a 200 carries stored lessons only,
    each at most once and in storage order. *)
Theorem search_reads_only (st : State) (query : option string) :
  ∃ r,
    get_lessons_search query st = (Ok r, st) ∧
    (((query = None ∨ query = Some "")
      ∧ r = json 400 "Search query is required")
     ∨ ((∃ q, query = Some q ∧ q ≠ "")
        ∧ (r = json 500 "Server error"
           ∨ ∃ results,
               r = {| status := 200; body := Documents results |} ∧
               results `sublist_of` lessons st))).
Proof.
  destruct query as [[|c q]|].
  - eexists. split; [done|]. left. split; [by right|done].
  - unfold get_lessons_search, try_catch, new_RegExp_i.
    destruct (parse_pattern (String c q)) as [p| |].
    + eexists. split; [done|]. right. split; [by eexists|].
      right. eexists. split; [done|]. apply sublist_filter.
    + eexists. split; [done|]. right. split; [by eexists|]. by left.
    + destruct (regexp_engine (String c q)) as [test|].
      * eexists. split; [done|]. right. split; [by eexists|].
        right. eexists. split; [done|]. apply sublist_filter.
      * eexists. split; [done|]. right. split; [by eexists|]. by left.
  - eexists. split; [done|]. left. split; [by left|done].
Qed.

(** X10. A query in which every regular-expression syntax character is
    escaped with a backslash is searched for as it reads: for a non-empty
    text [q] of printable ASCII characters, the search for [escape q] answers 200 with exactly
    the stored lessons, in storage order, of which one of the five
    searched fields contains [q] case-insensitively. *)
Theorem search_escaped_query (st : State) (q : string) :
  q ≠ "" →
  printable_string q = true →
  ∃ keep : Doc → bool,
    get_lessons_search (Some (escape q)) st
    = (Ok {| status := 200;
             body := Documents (filter (λ d, keep d = true) (lessons st)) |},
       st)
    ∧ ∀ d, keep d = true
           ↔ ∃ f, f ∈ search_fields ∧ field_contains q (d !! f).
Proof.
  intros Hne Hascii. eexists. split.
  - unfold get_lessons_search.
    pose proof (escape_nonempty q Hne) as Hesc.
    destruct (escape q) as [|c e] eqn:Heq; [done|].
    apply try_Ok. unfold new_RegExp_i.
    rewrite <-Heq, (parse_pattern_escape _ Hascii). reflexivity.
  - intros d. simpl. rewrite !orb_true_iff, !regex_field_literal.
    unfold search_fields. split.
    + intros [[[[?|?]|?]|?]|?]; eexists; (split; [|eassumption]); listed.
    + intros (f & Hf & Hc).
      repeat (apply elem_of_cons in Hf as [->|Hf]);
        [..|by apply elem_of_nil in Hf]; auto.
Qed.

End search_more.

Lemma search_escaped_query_witness :
  ∃ keep : Doc → bool,
    @get_lessons_search bare (Some (escape "math.png")) (shop (num 5))
    = (Ok {| status := 200;
             body := Documents (filter (λ d, keep d = true)
                                  (lessons (shop (num 5)))) |},
       shop (num 5))
    ∧ ∀ d, keep d = true
           ↔ ∃ f, f ∈ search_fields ∧ field_contains "math.png" (d !! f).
Proof.
  apply (@search_escaped_query bare (shop (num 5)) "math.png").
  - discriminate.
  - reflexivity.
Defined.

(** ** Ids in upper and lower case *)

Lemma hex_digit_lower (c : ascii) : hex_digit (lower_case c) = hex_digit c.
Proof. by destruct c as [[] [] [] [] [] [] [] []]. Qed.

Lemma hex_value_lower (s : string) (acc : N) :
  hex_value acc (lower s) = hex_value acc s.
Proof.
  revert acc. induction s as [|c s IH]; intros acc; [done|]. simpl.
  rewrite hex_digit_lower. by destruct (hex_digit c).
Qed.

Lemma length_lower (s : string) : String.length (lower s) = String.length s.
Proof. induction s as [|c s IH]; simpl; congruence. Qed.

Lemma ObjectId_of_string_lower (s : string) :
  ObjectId_of_string (lower s) = ObjectId_of_string s.
Proof.
  unfold ObjectId_of_string. by rewrite length_lower, hex_value_lower.
Qed.

Section id_case.
Context `{Platform}.

(** X11. The letter case of the id in the path does not matter: the
    decrement and the partial update do on the id in lower case what
    they do on the id as it was sent. *)
Theorem ids_ignore_case (st : State) (lessonId : string) :
  put_lesson_decrement (lower lessonId) st = put_lesson_decrement lessonId st
  ∧ ∀ updates,
      put_lesson (lower lessonId) updates st = put_lesson lessonId updates st.
Proof.
  assert (new_ObjectId (lower lessonId) = new_ObjectId lessonId) as Hnew
    by (unfold new_ObjectId; by rewrite ObjectId_of_string_lower).
  split; [|intros updates]; unfold put_lesson_decrement, put_lesson;
    by rewrite Hnew.
Qed.

End id_case.

(** ** Orders sent twice *)

(** X12. Saving the same order twice.  Without an [_id] the order is
    stored twice, under two different generated ids, and both requests
    answer 201.  With an [_id] of its own that the store accepts, the
    first request stores it and answers 201, the second answers 400
    "Insert failed" and stores nothing. *)
Theorem post_orders_twice (st : State) (order : Doc) :
  (order !! "_id" = None →
   ∃ o1 o2 : ObjectId,
     o1 ≠ o2 ∧
     repeat_request (post_orders order) 2 st
     = ([Ok (json 201 "Order saved successfully");
         Ok (json 201 "Order saved successfully")],
        {| lessons := lessons st;
           orders := orders st ++ [<["_id" := VOid o1]> order;
                                   <["_id" := VOid o2]> order];
           writes := S (S (writes st)) |}))
  ∧ (∀ id, order !! "_id" = Some id → ¬ is_array id →
       ¬ Exists (has_id id) (orders st) →
       repeat_request (post_orders order) 2 st
       = ([Ok (json 201 "Order saved successfully");
           Ok (json 400 "Insert failed")],
          {| lessons := lessons st;
             orders := orders st ++ [order];
             writes := S (writes st) |})).
Proof.
  split.
  - intros Hnone.
    exists (createPk (orders st)),
      (createPk (orders st ++ [<["_id" := VOid (createPk (orders st))]> order])).
    split.
    + intros Heq.
      apply (createPk_fresh
               (orders st ++ [<["_id" := VOid (createPk (orders st))]> order])).
      apply Exists_app. right. apply Exists_cons_hd.
      unfold has_id. by rewrite lookup_insert_eq, Heq at 1.
    + unfold repeat_request, post_orders, try_catch.
      erewrite bind_Ok by (by apply insertOne_fresh). simpl.
      erewrite bind_Ok by (by apply insertOne_fresh). simpl.
      by rewrite <-app_assoc.
  - intros id Hid Harr Hnew.
    unfold repeat_request, post_orders, try_catch.
    erewrite bind_Ok by (by apply insertOne_with_id). simpl.
    erewrite bind_Throw; [done|].
    unfold insertOne. simpl. rewrite Hid.
    rewrite decide_False by done.
    rewrite decide_True; [done|].
    apply Exists_app. right. by apply Exists_cons_hd.
Qed.

(** ** What becomes of the stored lessons *)

Lemma ids_insert (ds : list Doc) (i : nat) (d d' : Doc) :
  ds !! i = Some d → d' !! "_id" = d !! "_id" → ids (<[i := d']> ds) = ids ds.
Proof.
  unfold ids. intros Hi Hid.
  rewrite list_fmap_insert, list_insert_id; [done|].
  by rewrite list_lookup_fmap, Hi, Hid.
Qed.

Section kept.
Context `{Platform}.

Lemma updateOne_set_cases (o : ObjectId) (updates : Doc) (st : State) :
  top_level_keys updates →
  (∃ r, updateOne lessonsCollection o (USet updates) st = (r, st))
  ∨ ∃ i d,
      lessons st !! i = Some d ∧
      updates ∪ d ≠ d ∧
      d !! "_id" = (updates ∪ d) !! "_id" ∧
      updateOne lessonsCollection o (USet updates) st
      = (Ok {| matchedCount := 1; modifiedCount := 1 |},
         {| lessons := <[i := updates ∪ d]> (lessons st);
            orders := orders st;
            writes := S (writes st) |}).
Proof.
  intros Htop. unfold updateOne. cbn -[apply_update].
  rewrite decide_True by done.
  destruct (list_find (has_id (VOid o)) (lessons st)) as [[i d]|] eqn:Hfind.
  - apply list_find_Some in Hfind as (Hi & _ & _).
    destruct (apply_update (USet updates) d) as [d'|e] eqn:Hupd.
    + pose proof (set_keeps_id _ _ _ Hupd) as Hid.
      assert (d' = updates ∪ d) as ->.
      { simpl in Hupd. repeat case_match; by simplify_eq. }
      destruct (decide (updates ∪ d = d)) as [Heq|Hne].
      * left. by eexists.
      * right. by exists i, d.
    + left. by eexists.
  - left. by eexists.
Qed.

(** X13. No request removes a lesson or changes the id of one: after a
    decrement or a partial update (with top-level field names), whatever
    they are given, the stored lessons carry the same ids in the same
    order.  A creation request is answered either 400 "Missing required
    lesson fields", and then the store is the one before, or 201 with an
    id that no stored lesson had, and then the stored lessons carry the
    same ids as before, in the same order, followed by that id. *)
Theorem lessons_are_kept (st : State) :
  (∀ lessonId,
     ids (lessons (put_lesson_decrement lessonId st).2) = ids (lessons st))
  ∧ (∀ lessonId updates, top_level_keys updates →
       ids (lessons (put_lesson lessonId updates st).2) = ids (lessons st))
  ∧ (∀ req_body,
       ∃ r st',
         post_lessons req_body st = (Ok r, st') ∧
         ((r = json 400 "Missing required lesson fields" ∧ st' = st)
          ∨ ∃ o : ObjectId,
              r = {| status := 201;
                     body := MessageId "Lesson added successfully" (VOid o) |} ∧
              (Some (VOid o) ∉ ids (lessons st)) ∧
              ids (lessons st') = ids (lessons st) ++ [Some (VOid o)])).
Proof.
  split_and!.
  - intros lessonId.
    destruct (decrement_state st lessonId)
      as [->|(i & d & d' & Hi & Hupd & ->)]; [done|].
    simpl. eapply ids_insert; [done|]. by eapply dec_keeps_fields.
  - intros lessonId updates Htop.
    destruct (put_lesson_state lessonId updates st) as [->|(o & _ & ->)];
      [done|].
    destruct (updateOne_set_cases o updates st Htop)
      as [(r & ->)|(i & d & Hi & _ & Hid & ->)]; [done|].
    simpl. by eapply ids_insert.
  - intros req_body.
    destruct (all_truthy_or_falsy req_body) as [Hall|(f & Hf & Hfalsy)].
    + destruct (post_lessons_accepts st req_body Hall)
        as (stored & Hrun & Hid & _).
      eexists _, _. split; [exact Hrun|]. right.
      exists (createPk (lessons st)). split_and!; [done| |].
      * intros (d & Hd & Hin)%list_elem_of_fmap.
        apply (createPk_fresh (lessons st)), Exists_exists. by exists d.
      * unfold ids. simpl. by rewrite fmap_app; simpl; rewrite Hid.
    + eexists _, _. split; [by eapply post_lessons_rejects|]. by left.
Qed.

(** X14. A partial update with top-level field names changes the store
    only when it answers 200: then one stored lesson has got the listed
    fields set.  With every other answer (400 for an empty mapping, 404,
    500) the store is the one before. *)
Theorem put_lesson_writes_only_on_success (st : State) (lessonId : string)
    (updates : Doc) :
  top_level_keys updates →
  ∃ r st',
    put_lesson lessonId updates st = (Ok r, st') ∧
    (st' = st
     ∨ r = json 200 "Lesson updated successfully" ∧
       ∃ i d,
         lessons st !! i = Some d ∧
         st' = {| lessons := <[i := updates ∪ d]> (lessons st);
                  orders := orders st;
                  writes := S (writes st) |}).
Proof.
  intros Htop.
  destruct (decide (updates = ∅)) as [->|Hne].
  { eexists _, _. split; [apply put_lesson_empty|by left]. }
  rewrite put_lesson_nonempty by done.
  destruct (ObjectId_of_string lessonId) as [o|] eqn:Hid; cycle 1.
  { eexists _, _. split; [|by left].
    erewrite try_Throw; [done|]. by apply bind_Throw, new_ObjectId_Throw. }
  unfold try_catch. erewrite bind_Ok by (by apply new_ObjectId_Ok).
  unfold mbind, M_bind.
  destruct (updateOne_set_cases o updates st Htop)
    as [(r & ->)|(i & d & Hi & _ & _ & ->)].
  - destruct r as [r|e]; [|eexists _, _; split; [done|by left]].
    cbn. case_bool_decide; eexists _, _; (split; [done|by left]).
  - cbn. eexists _, _. split; [done|]. right. split; [done|]. by exists i, d.
Qed.

End kept.

Lemma put_lesson_writes_only_on_success_witness :
  ∃ r st',
    @put_lesson bare math_id {[ "topic" := VStr "X" ]} (shop (num 5))
    = (Ok r, st') ∧
    (st' = shop (num 5)
     ∨ r = json 200 "Lesson updated successfully" ∧
       ∃ i d,
         lessons (shop (num 5)) !! i = Some d ∧
         st' = {| lessons := <[i := {[ "topic" := VStr "X" ]} ∪ d]>
                               (lessons (shop (num 5)));
                  orders := orders (shop (num 5));
                  writes := S (writes (shop (num 5))) |}).
Proof.
  apply (@put_lesson_writes_only_on_success bare (shop (num 5)) math_id
           {[ "topic" := VStr "X" ]}).
  apply map_Forall_singleton. reflexivity.
Defined.
